(** * Blueprint models and the deCONZ device base of Home Assistant

    A shallow embedding of
    [homeassistant/components/blueprint/models.py] (classes [Blueprint],
    [BlueprintInputs], [DomainBlueprints]) and of
    [homeassistant/components/deconz/deconz_device.py] (class
    [DeconzBase]).

    - Python values that come out of YAML are the inductive [document].
    - A Python [dict] is an association list in insertion order; the
      operations below keep the keys unique, as Python does.
    - A Python [set] of strings is a [gset string].
    - A raised exception is the [Raise] branch of [result].
    - The registry's mutable state (files on disk, the [_blueprints] cache,
      the load lock) is threaded explicitly through every operation. *)

From Stdlib Require Import Ascii.
From stdpp Require Import gmap strings list pretty.

Set Warnings "-register-all".

(** ** Python values *)

Inductive document : Type :=
  | Null
  | Bool (b : bool)
  | Num (n : Z)
  | Str (s : string)
  | Placeholder (name : string)
  | List (items : list document)
  | Mapping (entries : list (string * document)).

Abbreviation dict := (list (string * document)).

(** ** Python dictionaries *)

Fixpoint dict_get (k : string) (d : dict) : option document :=
  match d with
  | [] => None
  | (k', v) :: d' => if decide (k' = k) then Some v else dict_get k d'
  end.

(** [d[k] = v]: overwrite in place, or append a new key at the end. *)
Fixpoint dict_set (k : string) (v : document) (d : dict) : dict :=
  match d with
  | [] => [(k, v)]
  | (k', v') :: d' =>
      if decide (k' = k) then (k, v) :: d' else (k', v') :: dict_set k v d'
  end.

(** [del d[k]] on the binding [d.pop(k)] found. *)
Fixpoint dict_del (k : string) (d : dict) : dict :=
  match d with
  | [] => []
  | (k', v) :: d' => if decide (k' = k) then d' else (k', v) :: dict_del k d'
  end.

Definition dict_keys (d : dict) : list string := d.*1.

(** [{**a, **b}]: a fresh dictionary that receives the items of [a] and
    then the items of [b]. *)
Definition dict_merge (a b : dict) : dict :=
  foldl (λ acc kv, dict_set kv.1 kv.2 acc) [] (a ++ b).


(** ** Exceptions and results *)

Inductive vol_Invalid : Type := Invalid (msg : string).

Inductive invalid_detail : Type :=
  | SchemaError (err : vol_Invalid)
  | Message (msg : string).

Inductive exception : Type :=
  | InvalidBlueprint (domain : option string) (blueprint_name : option string)
      (blueprint_data : document) (detail : invalid_detail)
  | FailedToLoad (domain : string) (blueprint_name : string) (exc : exception)
  | FileAlreadyExists (domain : string) (blueprint_name : string)
  | MissingPlaceholder (domain : string) (blueprint_name : string)
      (placeholder_names : gset string)
  | InvalidBlueprintInputs (domain : string) (msg : string)
  | UndefinedPlaceholder (name : string)
  | HomeAssistantError (msg : string)
  | FileNotFoundError (filename : string)
  | FileExistsError (filename : string)
  | NotADirectoryError (filename : string)
  | IsADirectoryError (filename : string)
  | KeyError (key : string)
  | TypeError
  | AttributeError.

Inductive result (A : Type) : Type :=
  | Raise (e : exception)
  | Return (a : A).
Arguments Raise {A} e.
Arguments Return {A} a.

#[export] Instance result_ret : MRet result := λ A a, Return a.
#[export] Instance result_bind : MBind result := λ A B f m,
  match m with Raise e => Raise e | Return a => f a end.

(** [obj[key]] for a value that came out of YAML. *)
Definition getitem (obj : document) (key : string) : result document :=
  match obj with
  | Mapping entries =>
      match dict_get key entries with
      | Some v => Return v
      | None => Raise (KeyError key)
      end
  | _ => Raise TypeError
  end.

(** [obj.get(key, default)]; only dictionaries have the method. *)
Definition get_default (obj : document) (key : string) (default : document)
  : result document :=
  match obj with
  | Mapping entries =>
      Return (match dict_get key entries with Some v => v | None => default end)
  | _ => Raise AttributeError
  end.

(** [set(obj)] for a dictionary: the set of its keys.  The blueprint and
    instance schemas only let dictionaries reach this call. *)
Definition set_of_keys (obj : document) : result (gset string) :=
  match obj with
  | Mapping entries => Return (list_to_set (dict_keys entries))
  | _ => Raise TypeError
  end.

(** A value used where the schema has established a string. *)
Definition as_str (obj : document) : result string :=
  match obj with
  | Str s => Return s
  | _ => Raise TypeError
  end.

(** [sep.join(items)] *)
Fixpoint join (sep : string) (items : list string) : string :=
  match items with
  | [] => ""
  | [x] => x
  | x :: rest => x +:+ sep +:+ join sep rest
  end.

(** ** Constants of [homeassistant.const] and [blueprint.const] *)

(** Modelled from the spec: [const.py] of the blueprint component and
    [homeassistant/const.py] are not among the sources; the key names are
    the ones of the document schema and of the example scenario in the
    specification (sections 6 and 8). *)
Definition CONF_BLUEPRINT : string := "blueprint".
Definition CONF_USE_BLUEPRINT : string := "use_blueprint".
Definition CONF_DOMAIN : string := "domain".
Definition CONF_NAME : string := "name".
Definition CONF_PATH : string := "path".
Definition CONF_INPUT : string := "input".
Definition CONF_HOMEASSISTANT : string := "homeassistant".
Definition CONF_MIN_VERSION : string := "min_version".
Definition CONF_SOURCE_URL : string := "source_url".
Definition BLUEPRINT_FOLDER : string := "blueprints".

(** ** The placeholder engine, [homeassistant.helpers.placeholder] *)

Module placeholder.

(** Modelled from the spec: [helpers/placeholder.py] is not among the
    sources.  Section 4.1: [extract_placeholders] walks the whole tree
    (lists, mappings, scalars) and collects every distinct placeholder
    reference; a reference [!input name] is the node [Placeholder name]. *)
Fixpoint extract_placeholders (obj : document) : gset string :=
  match obj with
  | Placeholder name => {[ name ]}
  | List items => ⋃ (map extract_placeholders items)
  | Mapping entries => ⋃ (map (λ kv, extract_placeholders kv.2) entries)
  | _ => ∅
  end.

(** Modelled from the spec: section 4.1, [substitute] builds a
    structurally identical tree in which every placeholder reference is
    replaced by its value; other content passes through unchanged; a
    reference without a value fails with [UndefinedPlaceholder]. *)
Fixpoint substitute (obj : document) (substitutions : dict)
  : result document :=
  match obj with
  | Placeholder name =>
      match dict_get name substitutions with
      | Some v => Return v
      | None => Raise (UndefinedPlaceholder name)
      end
  | List items =>
      items' ← (fix go (l : list document) : result (list document) :=
                  match l with
                  | [] => Return []
                  | v :: l' =>
                      v' ← substitute v substitutions;
                      l'' ← go l';
                      Return (v' :: l'')
                  end) items;
      Return (List items')
  | Mapping entries =>
      entries' ← (fix go (l : dict) : result dict :=
                    match l with
                    | [] => Return []
                    | (k, v) :: l' =>
                        v' ← substitute v substitutions;
                        l'' ← go l';
                        Return ((k, v') :: l'')
                    end) entries;
      Return (Mapping entries')
  | _ => Return obj
  end.

(** The two inner loops of [substitute], by name. *)
Definition substitute_items (substitutions : dict) :=
  fix go (l : list document) : result (list document) :=
    match l with
    | [] => Return []
    | v :: l' =>
        v' ← substitute v substitutions;
        l'' ← go l';
        Return (v' :: l'')
    end.

Definition substitute_entries (substitutions : dict) :=
  fix go (l : dict) : result dict :=
    match l with
    | [] => Return []
    | (k, v) :: l' =>
        v' ← substitute v substitutions;
        l'' ← go l';
        Return ((k, v') :: l'')
    end.

End placeholder.

(** ** External collaborators *)

Definition is_str (obj : option document) : bool :=
  match obj with Some (Str _) => true | _ => false end.

Definition is_mapping (obj : option document) : bool :=
  match obj with Some (Mapping _) => true | _ => false end.

(** Modelled from the spec: [schemas.py] is not among the sources.  What a
    document accepted by the blueprint schema looks like, after section 4.2
    step 1 and section 6: a metadata block with [domain] (string, required),
    [name] (string, required), [input] (mapping, required) and an optional
    minimum version string. *)
Definition valid_blueprint_document (d : document) : bool :=
  match d with
  | Mapping top =>
      match dict_get CONF_BLUEPRINT top with
      | Some (Mapping meta) =>
          is_str (dict_get CONF_DOMAIN meta)
          && is_str (dict_get CONF_NAME meta)
          && is_mapping (dict_get CONF_INPUT meta)
          && match dict_get CONF_HOMEASSISTANT meta with
             | None => true
             | Some (Mapping ha) =>
                 match dict_get CONF_MIN_VERSION ha with
                 | None | Some (Str _) => true
                 | _ => false
                 end
             | _ => false
             end
      | _ => false
      end
  | _ => false
  end.

(** Modelled from the spec: section 6, an instance configuration holds a
    "use-blueprint" section with [path] (string, required) and [input]
    (mapping, required). *)
Definition valid_instance_config (config : dict) : bool :=
  match dict_get CONF_USE_BLUEPRINT config with
  | Some (Mapping use) =>
      is_str (dict_get CONF_PATH use) && is_mapping (dict_get CONF_INPUT use)
  | _ => false
  end.

(** What [models.py] imports and this development does not have the source
    of: the two voluptuous schemas, [pkg_resources.parse_version] with the
    running [__version__], the path resolver [hass.config.path], the YAML
    reader and writer, and the directory listing behind [Path.glob].  The
    schemas come with the only fact the code relies on: what they accept has
    the shape the specification gives.

    The last three are the operating system behind [pathlib], on a disk
    with the given regular files and directories: whether a path exists
    ([Path.exists]), what [path.parent.mkdir(parents=True, exist_ok=True)]
    raises and which directories there are after it, and which file a path
    names when it is opened for writing ([Path.write_text]), or the error of
    opening it.  The only fact assumed of them is that a path exists once
    it has been written. *)
Class Collaborators : Type := {
  BLUEPRINT_SCHEMA : document → vol_Invalid + document;
  BLUEPRINT_SCHEMA_valid : ∀ d d',
    BLUEPRINT_SCHEMA d = inr d' → valid_blueprint_document d' = true;
  BLUEPRINT_INSTANCE_FIELDS : dict → vol_Invalid + dict;
  BLUEPRINT_INSTANCE_FIELDS_valid : ∀ c c',
    BLUEPRINT_INSTANCE_FIELDS c = inr c' → valid_instance_config c' = true;
  humanize_error : dict → vol_Invalid → string;
  version : Type;
  parse_version : string → version;
  version_lt : version → version → bool;
  __version__ : string;
  config_path : list string → string;
  yaml_dump : document → string;
  yaml_parse : string → result document;
  glob_yaml : gmap string string → string → list string;
  path_exists : gmap string string → gset string → string → bool;
  parent_mkdir :
    gmap string string → gset string → string → option exception * gset string;
  write_target : gmap string string → gset string → string → exception + string;
  path_exists_written : ∀ files dirs path fname text,
    write_target files dirs path = inr fname →
    path_exists (<[fname := text]> files) dirs path = true;
}.

(** ** [class Blueprint] *)

Module Blueprint.

Record t : Type := {
  data : document;
  placeholders : gset string;
  domain : string;
}.

Section methods.
Context `{Collaborators}.

(** [self.data[CONF_BLUEPRINT][CONF_NAME]] *)
Definition name_of (data : document) : result string :=
  metadata ← getitem data CONF_BLUEPRINT;
  getitem metadata CONF_NAME ≫= as_str.

(** [path or self.name] *)
Definition path_or_name (path : option string) (data : document)
  : result string :=
  match path with
  | Some p => if decide (p = "") then name_of data else Return p
  | None => name_of data
  end.

(** [expected_domain is not None and data_domain != expected_domain] *)
Definition domain_mismatch (expected_domain : option string)
    (data_domain : string) : bool :=
  match expected_domain with
  | Some e => bool_decide (data_domain ≠ e)
  | None => false
  end.

(** The text an f-string gives for an optional string. *)
Definition format (s : option string) : string :=
  match s with Some s => s | None => "None" end.

(** [data[CONF_BLUEPRINT][CONF_DOMAIN]] *)
Definition domain_of (data : document) : result string :=
  metadata ← getitem data CONF_BLUEPRINT;
  getitem metadata CONF_DOMAIN ≫= as_str.

(** [set(data[CONF_BLUEPRINT][CONF_INPUT])] *)
Definition declared_inputs (data : document) : result (gset string) :=
  metadata ← getitem data CONF_BLUEPRINT;
  getitem metadata CONF_INPUT ≫= set_of_keys.

(** [Blueprint(data, path=..., expected_domain=...)].  The names joined
    into the last message come in the order of [elements]; Python gives
    them in the iteration order of the set. *)
Definition __init__ (data : document) (path expected_domain : option string)
  : result t :=
  match BLUEPRINT_SCHEMA data with
  | inl err => Raise (InvalidBlueprint expected_domain path data (SchemaError err))
  | inr data =>
      let placeholders := placeholder.extract_placeholders data in
      data_domain ← domain_of data;
      if domain_mismatch expected_domain data_domain then
        name ← path_or_name path data;
        Raise (InvalidBlueprint expected_domain (Some name) data
                 (Message ("Found incorrect blueprint type " +:+ data_domain
                           +:+ ", expected " +:+ format expected_domain)))
      else
        declared ← declared_inputs data;
        let missing := placeholders ∖ declared in
        if decide (missing = ∅) then
          Return {| data := data; placeholders := placeholders;
                    domain := data_domain |}
        else
          name ← path_or_name path data;
          Raise (InvalidBlueprint (Some data_domain) (Some name) data
                   (Message ("Missing input definition for "
                             +:+ join ", " (elements missing))))
  end.

Definition name (self : t) : result string := name_of (data self).

Definition metadata (self : t) : result document :=
  getitem (data self) CONF_BLUEPRINT.

(** [update_metadata(source_url=...)] *)
Definition update_metadata (self : t) (source_url : option string)
  : result t :=
  match source_url with
  | None => Return self
  | Some url =>
      match data self with
      | Mapping top =>
          match dict_get CONF_BLUEPRINT top with
          | Some (Mapping meta) =>
              Return {| data := Mapping (dict_set CONF_BLUEPRINT
                                  (Mapping (dict_set CONF_SOURCE_URL (Str url) meta))
                                  top);
                        placeholders := placeholders self;
                        domain := domain self |}
          | Some _ => Raise TypeError
          | None => Raise (KeyError CONF_BLUEPRINT)
          end
      | _ => Raise TypeError
      end
  end.

Definition yaml (self : t) : string := yaml_dump (data self).

(** [Blueprint.validate]: the list of errors, or [None]. *)
Definition validate (self : t) : result (option (list string)) :=
  let errors : list string := [] in
  metadata ← metadata self;
  ha ← get_default metadata CONF_HOMEASSISTANT (Mapping []);
  min_version ← get_default ha CONF_MIN_VERSION Null;
  match min_version with
  | Null => Return None
  | Str min_version =>
      let errors :=
        if version_lt (parse_version __version__) (parse_version min_version)
        then errors ++ ["Requires at least Home Assistant " +:+ min_version]
        else errors in
      Return (match errors with [] => None | _ => Some errors end)
  | _ => Raise TypeError
  end.

End methods.
End Blueprint.

(** ** [class BlueprintInputs] *)

Module BlueprintInputs.

Record t : Type := {
  blueprint : Blueprint.t;
  config_with_inputs : dict;
}.

Section methods.
Context `{Collaborators}.

(** [self.config_with_inputs[CONF_USE_BLUEPRINT][CONF_INPUT]] *)
Definition inputs (self : t) : result document :=
  use ← getitem (Mapping (config_with_inputs self)) CONF_USE_BLUEPRINT;
  getitem use CONF_INPUT.

Definition validate (self : t) : result unit :=
  supplied ← inputs self ≫= set_of_keys;
  let missing := Blueprint.placeholders (blueprint self) ∖ supplied in
  if decide (missing = ∅) then Return ()
  else
    name ← Blueprint.name (blueprint self);
    Raise (MissingPlaceholder (Blueprint.domain (blueprint self)) name missing).

Definition as_dict (obj : document) : result dict :=
  match obj with
  | Mapping entries => Return entries
  | _ => Raise TypeError
  end.

(** [combined.pop(key)] *)
Definition dict_pop (key : string) (d : dict) : result dict :=
  match dict_get key d with
  | Some _ => Return (dict_del key d)
  | None => Raise (KeyError key)
  end.

Definition async_substitute (self : t) : result dict :=
  substitutions ← inputs self ≫= as_dict;
  processed ← placeholder.substitute (Blueprint.data (blueprint self)) substitutions
              ≫= as_dict;
  let combined := dict_merge (config_with_inputs self) processed in
  combined ← dict_pop CONF_USE_BLUEPRINT combined;
  combined ← dict_pop CONF_BLUEPRINT combined;
  Return combined.

End methods.
End BlueprintInputs.

(** ** [class DomainBlueprints] *)

Module DomainBlueprints.

(** The registry object together with the part of the world it acts on:
    [files] maps an absolute file name to the text of the file, [dirs] are
    the directories that have been made,
    [disk_reads] logs every [yaml.load_yaml] call (newest last).  In
    [_blueprints] a path is absent ([None]), cached as Python's [None]
    ([Some None]) or cached with its blueprint ([Some (Some b)]). *)
Record t : Type := {
  domain : string;
  _blueprints : gmap string (option Blueprint.t);
  files : gmap string string;
  dirs : gset string;
  disk_reads : list string;
}.

Definition set_blueprints (self : t) (c : gmap string (option Blueprint.t)) : t :=
  {| domain := domain self; _blueprints := c;
     files := files self; dirs := dirs self; disk_reads := disk_reads self |}.

Definition set_files (self : t) (f : gmap string string) : t :=
  {| domain := domain self; _blueprints := _blueprints self;
     files := f; dirs := dirs self; disk_reads := disk_reads self |}.

Definition set_dirs (self : t) (d : gset string) : t :=
  {| domain := domain self; _blueprints := _blueprints self;
     files := files self; dirs := d; disk_reads := disk_reads self |}.

Definition log_read (self : t) (fname : string) : t :=
  {| domain := domain self; _blueprints := _blueprints self;
     files := files self; dirs := dirs self;
     disk_reads := disk_reads self ++ [fname] |}.

(** Modelled from the spec: [errors.py] is not among the sources.
    [except BlueprintException] catches the blueprint errors of the
    taxonomy in section 7. *)
Definition is_BlueprintException (e : exception) : bool :=
  match e with
  | InvalidBlueprint _ _ _ _ | FailedToLoad _ _ _ | FileAlreadyExists _ _
  | MissingPlaceholder _ _ _ | InvalidBlueprintInputs _ _ => true
  | _ => false
  end.

(** [except (HomeAssistantError, FileNotFoundError)]; the blueprint
    exceptions are Home Assistant errors themselves. *)
Definition is_load_error (e : exception) : bool :=
  match e with
  | HomeAssistantError _ | FileNotFoundError _ => true
  | _ => is_BlueprintException e
  end.

(** [s.endswith(suffix)] *)
Definition endswith (s suffix : string) : bool :=
  bool_decide (String.length suffix ≤ String.length s)
  && bool_decide (String.substring (String.length s - String.length suffix)
                    (String.length suffix) s = suffix).

(** The calls on a registry, and the changes of the disk that happen
    behind its back. *)
Inductive operation : Type :=
  | ResetCache
  | GetBlueprints
  | GetBlueprint (blueprint_path : string)
  | InputsFromConfig (config_with_blueprint : dict)
  | RemoveBlueprint (blueprint_path : string)
  | AddBlueprint (blueprint : Blueprint.t) (blueprint_path : string)
  | WriteFile (fname text : string)
  | DeleteFile (fname : string).

Definition is_reset (op : operation) : bool :=
  match op with ResetCache => true | _ => false end.

(** The calls that are meant to read: they write no file and delete none. *)
Definition is_read_only (op : operation) : bool :=
  match op with
  | ResetCache | GetBlueprints | GetBlueprint _ | InputsFromConfig _ => true
  | _ => false
  end.

(** The cache holds Python's [None] for the path: a load was attempted
    and failed. *)
Definition cached_failed (self : t) (blueprint_path : string) : Prop :=
  _blueprints self !! blueprint_path = Some None.

(** The cache holds a blueprint for the path. *)
Definition cached_valid (self : t) (blueprint_path : string) : Prop :=
  ∃ b, _blueprints self !! blueprint_path = Some (Some b).

(** [blueprint_path], with [.yaml] appended when it is not there. *)
Definition with_extension (blueprint_path : string) : string :=
  if endswith blueprint_path ".yaml" then blueprint_path
  else blueprint_path +:+ ".yaml".

Section methods.
Context `{Collaborators}.

Definition __init__ (domain : string) : t :=
  {| domain := domain; _blueprints := ∅; files := ∅; dirs := ∅;
     disk_reads := [] |}.

Definition async_reset_cache (self : t) : t := set_blueprints self ∅.

(** [hass.config.path(BLUEPRINT_FOLDER, self.domain, blueprint_path)] *)
Definition file_of (self : t) (blueprint_path : string) : string :=
  config_path [BLUEPRINT_FOLDER; domain self; blueprint_path].

(** Modelled from the spec: [homeassistant/util/yaml] is not among the
    sources.  [yaml.load_yaml(fname)] is one read of the disk; it fails
    when the file is not found, or with what the reader makes of a text it
    cannot use (section 7, [FailedToLoad]). *)
Definition load_yaml (fname : string) (self : t) : result document * t :=
  let self := log_read self fname in
  match files self !! fname with
  | None => (Raise (FileNotFoundError fname), self)
  | Some text => (yaml_parse text, self)
  end.

Definition _load_blueprint (self : t) (blueprint_path : string)
  : result Blueprint.t * t :=
  let '(r, self) := load_yaml (file_of self blueprint_path) self in
  match r with
  | Raise err =>
      if is_load_error err
      then (Raise (FailedToLoad (domain self) blueprint_path err), self)
      else (Raise err, self)
  | Return blueprint_data =>
      (Blueprint.__init__ blueprint_data (Some blueprint_path) (Some (domain self)),
       self)
  end.

(** [self._blueprints.get(blueprint_path) is None] *)
Definition get_is_None (self : t) (blueprint_path : string) : bool :=
  match _blueprints self !! blueprint_path with
  | Some (Some _) => false
  | _ => true
  end.

(** The loop of [_load_blueprints] over the globbed paths. *)
Fixpoint _load_blueprints_loop (paths : list string)
    (results : gmap string (exception + option Blueprint.t)) (self : t)
  : result (gmap string (exception + option Blueprint.t)) * t :=
  match paths with
  | [] => (Return results, self)
  | blueprint_path :: paths =>
      if get_is_None self blueprint_path then
        match _load_blueprint self blueprint_path with
        | (Return b, self) =>
            let self := set_blueprints self
                          (<[blueprint_path := Some b]> (_blueprints self)) in
            _load_blueprints_loop paths
              (<[blueprint_path := inr (Some b)]> results) self
        | (Raise err, self) =>
            if is_BlueprintException err then
              let self := set_blueprints self
                            (<[blueprint_path := None]> (_blueprints self)) in
              _load_blueprints_loop paths
                (<[blueprint_path := inl err]> results) self
            else (Raise err, self)
        end
      else
        _load_blueprints_loop paths
          (<[blueprint_path := inr (default None (_blueprints self !! blueprint_path))]>
             results) self
  end.

Definition _load_blueprints (self : t)
  : result (gmap string (exception + option Blueprint.t)) * t :=
  let blueprint_folder := config_path [BLUEPRINT_FOLDER; domain self] in
  _load_blueprints_loop (glob_yaml (files self) blueprint_folder) ∅ self.

(** The methods below are the coroutines run without interleaving: the
    lock is free on entry and released on exit. *)
Definition async_get_blueprints (self : t) := _load_blueprints self.

Definition async_get_blueprint (self : t) (blueprint_path : string)
  : result (option Blueprint.t) * t :=
  match _blueprints self !! blueprint_path with
  | Some entry => (Return entry, self)
  | None =>
      match _load_blueprint self blueprint_path with
      | (Raise e, self) =>
          (Raise e,
           set_blueprints self (<[blueprint_path := None]> (_blueprints self)))
      | (Return b, self) =>
          (Return (Some b),
           set_blueprints self (<[blueprint_path := Some b]> (_blueprints self)))
      end
  end.

Definition async_inputs_from_config (self : t) (config_with_blueprint : dict)
  : result BlueprintInputs.t * t :=
  match BLUEPRINT_INSTANCE_FIELDS config_with_blueprint with
  | inl err =>
      (Raise (InvalidBlueprintInputs (domain self)
                (humanize_error config_with_blueprint err)), self)
  | inr config_with_blueprint =>
      match (bp_conf ← getitem (Mapping config_with_blueprint) CONF_USE_BLUEPRINT;
             getitem bp_conf CONF_PATH ≫= as_str) with
      | Raise e => (Raise e, self)
      | Return path =>
          match async_get_blueprint self path with
          | (Raise e, self) => (Raise e, self)
          | (Return None, self) =>
              (* [inputs.validate()] reads [None.placeholders] *)
              (Raise AttributeError, self)
          | (Return (Some b), self) =>
              let inputs := {| BlueprintInputs.blueprint := b;
                               BlueprintInputs.config_with_inputs :=
                                 config_with_blueprint |} in
              match BlueprintInputs.validate inputs with
              | Raise e => (Raise e, self)
              | Return _ => (Return inputs, self)
              end
          end
      end
  end.

(** [path.unlink()] raises [FileNotFoundError] when there is no file. *)
Definition async_remove_blueprint (self : t) (blueprint_path : string)
  : result unit * t :=
  let path := file_of self blueprint_path in
  match files self !! path with
  | None => (Raise (FileNotFoundError path), self)
  | Some _ =>
      let self := set_files self (delete path (files self)) in
      (Return (),
       set_blueprints self (<[blueprint_path := None]> (_blueprints self)))
  end.

(** [path.exists()], [path.parent.mkdir(parents=True, exist_ok=True)] and
    [path.write_text(blueprint.yaml())] are calls on the operating system:
    the directories that [mkdir] made stay when it or the write fails, and
    the text goes to the file that the path names, whatever the name of
    that file is. *)
Definition _create_file (self : t) (blueprint : Blueprint.t)
    (blueprint_path : string) : result unit * t :=
  let path := file_of self blueprint_path in
  if path_exists (files self) (dirs self) path then
    (Raise (FileAlreadyExists (domain self) blueprint_path), self)
  else
    match parent_mkdir (files self) (dirs self) path with
    | (Some e, made) => (Raise e, set_dirs self made)
    | (None, made) =>
        let self := set_dirs self made in
        match write_target (files self) (dirs self) path with
        | inl e => (Raise e, self)
        | inr fname =>
            (Return (),
             set_files self (<[fname := Blueprint.yaml blueprint]> (files self)))
        end
    end.

Definition async_add_blueprint (self : t) (blueprint : Blueprint.t)
    (blueprint_path : string) : result unit * t :=
  let blueprint_path := with_extension blueprint_path in
  match _create_file self blueprint blueprint_path with
  | (Raise e, self) => (Raise e, self)
  | (Return _, self) =>
      (Return (),
       set_blueprints self (<[blueprint_path := Some blueprint]> (_blueprints self)))
  end.

(** What a program, or somebody at the disk, can do next. *)
Definition perform (op : operation) (self : t) : t :=
  match op with
  | ResetCache => async_reset_cache self
  | GetBlueprints => (async_get_blueprints self).2
  | GetBlueprint blueprint_path => (async_get_blueprint self blueprint_path).2
  | InputsFromConfig config => (async_inputs_from_config self config).2
  | RemoveBlueprint blueprint_path => (async_remove_blueprint self blueprint_path).2
  | AddBlueprint blueprint blueprint_path =>
      (async_add_blueprint self blueprint blueprint_path).2
  | WriteFile fname text => set_files self (<[fname := text]> (files self))
  | DeleteFile fname => set_files self (delete fname (files self))
  end.

Definition run (ops : list operation) (self : t) : t :=
  foldl (λ self op, perform op self) self ops.

End methods.
End DomainBlueprints.

(** ** Concurrent calls of [async_get_blueprint] *)

Module EventLoop.

(** Where a call of [async_get_blueprint] stands.  A coroutine runs
    without interruption from one suspension point to the next; the two
    suspension points are the [async with self._load_lock] when the lock
    is taken, and the [await] of the executor job. *)
Inductive pc : Type :=
  | Created
  | AcquiringLock
  | Loading
  | Finished (r : result (option Blueprint.t)).

Record call : Type := {
  blueprint_path : string;
  at_pc : pc;
}.

Record loop : Type := {
  registry : DomainBlueprints.t;
  locked : bool;
  calls : list call;
}.

Section steps.
Context `{Collaborators}.

(** The body of [async with self._load_lock], up to the [await]. *)
Definition check_again (self : DomainBlueprints.t) (path : string)
  : pc * bool :=
  match DomainBlueprints._blueprints self !! path with
  | Some entry => (Finished (Return entry), false)
  | None => (Loading, true)
  end.

(** The executor job returns: cache the outcome, release the lock. *)
Definition finish_load (self : DomainBlueprints.t) (path : string)
  : pc * DomainBlueprints.t :=
  match DomainBlueprints._load_blueprint self path with
  | (Raise e, self) =>
      (Finished (Raise e),
       DomainBlueprints.set_blueprints self
         (<[path := None]> (DomainBlueprints._blueprints self)))
  | (Return b, self) =>
      (Finished (Return (Some b)),
       DomainBlueprints.set_blueprints self
         (<[path := Some b]> (DomainBlueprints._blueprints self)))
  end.

(** Resume one call until it suspends again or finishes; [None] when
    the call cannot run (it waits for a held lock, or has finished). *)
Definition resume (c : call) (self : DomainBlueprints.t) (lock : bool)
  : option (pc * DomainBlueprints.t * bool) :=
  let path := blueprint_path c in
  match at_pc c with
  | Created =>
      match DomainBlueprints._blueprints self !! path with
      | Some entry => Some (Finished (Return entry), self, lock)
      | None =>
          if lock then Some (AcquiringLock, self, lock)
          else let '(p, lock) := check_again self path in Some (p, self, lock)
      end
  | AcquiringLock =>
      if lock then None
      else let '(p, lock) := check_again self path in Some (p, self, lock)
  | Loading =>
      let '(p, self) := finish_load self path in Some (p, self, false)
  | Finished _ => None
  end.

Definition step (i : nat) (l : loop) : option loop :=
  c ← calls l !! i;
  '(p, self, lock) ← resume c (registry l) (locked l);
  Some {| registry := self; locked := lock;
          calls := <[i := {| blueprint_path := blueprint_path c; at_pc := p |}]>
                     (calls l) |}.

(** Run the calls in the order a schedule names them. *)
Fixpoint run (schedule : list nat) (l : loop) : option loop :=
  match schedule with
  | [] => Some l
  | i :: schedule => step i l ≫= run schedule
  end.

(** [n] callers that all ask for the same path. *)
Definition gather (self : DomainBlueprints.t) (path : string) (n : nat) : loop :=
  {| registry := self; locked := false;
     calls := replicate n {| blueprint_path := path; at_pc := Created |} |}.

Definition outcomes (l : loop) : list pc := at_pc <$> calls l.

End steps.
End EventLoop.

(** ** [class DeconzBase] *)

Module DeconzBase.

Record device : Type := {
  uniqueid : option string;
  manufacturer : string;
  modelid : string;
  name : string;
  swversion : string;
}.

Record gateway_t : Type := {
  bridgeid : string;
}.

Record t : Type := {
  _device : device;
  gateway : gateway_t;
}.

Record device_info_t : Type := {
  connections : gset (string * string);
  identifiers : gset (string * string);
  info_manufacturer : string;
  info_model : string;
  info_name : string;
  info_sw_version : string;
  via_device : string * string;
}.

(** [s.count(c)] for a one-character [c]. *)
Fixpoint count (c : ascii) (s : string) : nat :=
  match s with
  | EmptyString => 0
  | String a s' => (if decide (a = c) then 1 else 0) + count c s'
  end.

(** The text before and after the first [sep], if [sep] occurs. *)
Fixpoint partition (sep : ascii) (s : string) : option (string * string) :=
  match s with
  | EmptyString => None
  | String a s' =>
      if decide (a = sep) then Some (EmptyString, s')
      else match partition sep s' with
           | Some (before, after) => Some (String a before, after)
           | None => None
           end
  end.

(** [s.split(sep, 1)] for a one-character [sep]. *)
Definition split1 (sep : ascii) (s : string) : list string :=
  match partition sep s with
  | Some (before, after) => [before; after]
  | None => [s]
  end.

Section properties.
(** [CONNECTION_ZIGBEE] of the device registry and [DOMAIN] of
    [deconz.const]; their values play no role. *)
Variables CONNECTION_ZIGBEE DECONZ_DOMAIN : string.

Definition unique_id (self : t) : option string := uniqueid (_device self).

Definition serial (self : t) : option string :=
  match uniqueid (_device self) with
  | None => None
  | Some u =>
      if decide (count ":"%char u ≠ 7) then None
      else head (split1 "-"%char u)
  end.

Definition device_info (self : t) : option device_info_t :=
  match serial self with
  | None => None
  | Some serial =>
      Some {| connections := {[ (CONNECTION_ZIGBEE, serial) ]};
              identifiers := {[ (DECONZ_DOMAIN, serial) ]};
              info_manufacturer := manufacturer (_device self);
              info_model := modelid (_device self);
              info_name := name (_device self);
              info_sw_version := swversion (_device self);
              via_device := (DECONZ_DOMAIN, bridgeid (gateway self)) |}
  end.

End properties.
End DeconzBase.

(** ** [class DeconzDevice] *)

Module DeconzDevice.

(** The calls an entity makes on its device and on Home Assistant. *)
Inductive call : Type :=
  | register_callback (unique_id : option string)
  | remove_callback (unique_id : option string)
  | dispatcher_connect (signal : string)
  | write_ha_state (entity_id : string).

(** The gateway as the entities see and change it: [entities] maps a
    platform type to the set of unique ids, [deconz_ids] maps an entity id
    to the deCONZ id of its device; [calls] logs the calls made so far
    (newest last). *)
Record gateway_state : Type := {
  entities : gmap string (gset (option string));
  deconz_ids : gmap string string;
  ignore_state_updates : bool;
  gateway_available : bool;
  signal_reachable : string;
  calls : list call;
}.

(** An entity: the base with its device, the class attribute [TYPE], the
    entity id Home Assistant gave it, and the fields of the device that
    the base does not read. *)
Record t : Type := {
  base : DeconzBase.t;
  TYPE : string;
  entity_id : string;
  device_type : string;
  reachable : bool;
  deconz_id : string;
}.

Definition unique_id (self : t) : option string := DeconzBase.unique_id (base self).

Definition set_entities (gw : gateway_state)
    (e : gmap string (gset (option string))) : gateway_state :=
  {| entities := e; deconz_ids := deconz_ids gw;
     ignore_state_updates := ignore_state_updates gw;
     gateway_available := gateway_available gw;
     signal_reachable := signal_reachable gw; calls := calls gw |}.

Definition set_deconz_ids (gw : gateway_state) (d : gmap string string)
  : gateway_state :=
  {| entities := entities gw; deconz_ids := d;
     ignore_state_updates := ignore_state_updates gw;
     gateway_available := gateway_available gw;
     signal_reachable := signal_reachable gw; calls := calls gw |}.

Definition log_call (gw : gateway_state) (c : call) : gateway_state :=
  {| entities := entities gw; deconz_ids := deconz_ids gw;
     ignore_state_updates := ignore_state_updates gw;
     gateway_available := gateway_available gw;
     signal_reachable := signal_reachable gw; calls := calls gw ++ [c] |}.

(** The text of a key in a [KeyError]. *)
Definition repr (unique_id : option string) : string :=
  match unique_id with Some u => u | None => "None" end.

(** [self.gateway.entities[self.TYPE].add(self.unique_id)] *)
Definition __init__ (self : t) (gw : gateway_state) : result unit * gateway_state :=
  match entities gw !! TYPE self with
  | None => (Raise (KeyError (TYPE self)), gw)
  | Some ids =>
      (Return (),
       set_entities gw (<[TYPE self := {[ unique_id self ]} ∪ ids]> (entities gw)))
  end.

Definition entity_registry_enabled_default (self : t) : bool :=
  if decide (device_type self = "Daylight") then false else true.

Definition async_added_to_hass (self : t) (gw : gateway_state) : gateway_state :=
  let gw := log_call gw (register_callback (unique_id self)) in
  let gw := set_deconz_ids gw (<[entity_id self := deconz_id self]> (deconz_ids gw)) in
  log_call gw (dispatcher_connect (signal_reachable gw)).

Definition async_will_remove_from_hass (self : t) (gw : gateway_state)
  : result unit * gateway_state :=
  let gw := log_call gw (remove_callback (unique_id self)) in
  match deconz_ids gw !! entity_id self with
  | None => (Raise (KeyError (entity_id self)), gw)
  | Some _ =>
      let gw := set_deconz_ids gw (delete (entity_id self) (deconz_ids gw)) in
      match entities gw !! TYPE self with
      | None => (Raise (KeyError (TYPE self)), gw)
      | Some ids =>
          if decide (unique_id self ∈ ids) then
            (Return (),
             set_entities gw (<[TYPE self := ids ∖ {[ unique_id self ]}]> (entities gw)))
          else (Raise (KeyError (repr (unique_id self))), gw)
      end
  end.

Definition async_update_callback (self : t) (force_update : bool)
    (gw : gateway_state) : gateway_state :=
  if negb force_update && ignore_state_updates gw then gw
  else log_call gw (write_ha_state (entity_id self)).

Definition available (self : t) (gw : gateway_state) : bool :=
  gateway_available gw && reachable self.

Definition name (self : t) : string := DeconzBase.name (DeconzBase._device (base self)).

Definition should_poll (self : t) : bool := false.

End DeconzDevice.

(** The work that is left to the calls of an event loop: a call runs at
    most three times, once from each place where it can stand. *)
Definition rank (p : EventLoop.pc) : nat :=
  match p with
  | EventLoop.Created => 3
  | EventLoop.AcquiringLock => 2
  | EventLoop.Loading => 1
  | EventLoop.Finished _ => 0
  end.

Definition work (l : EventLoop.loop) : nat :=
  sum_list_with (λ c, rank (EventLoop.at_pc c)) (EventLoop.calls l).

(** ** One installation *)

(** A concrete set of collaborators, used to run the model on the example
    scenario of the specification. *)
Module Scenario.

(** Modelled from the spec: [schemas.py] is not among the sources; the
    schema accepts the documents of the shape of section 6 and hands them
    back unchanged. *)
Definition blueprint_schema (d : document) : vol_Invalid + document :=
  if valid_blueprint_document d then inr d
  else inl (Invalid "invalid blueprint").

(** Modelled from the spec: section 6, the instance-config schema. *)
Definition instance_schema (c : dict) : vol_Invalid + dict :=
  if valid_instance_config c then inr c
  else inl (Invalid "invalid use_blueprint section").

(** Modelled from the spec: "semantic version comparison"; a version is
    its dotted numeric fields, compared from the left. *)
Fixpoint fields (s : string) (cur : nat) : list nat :=
  match s with
  | EmptyString => [cur]
  | String c s' =>
      if decide (c = "."%char) then cur :: fields s' 0
      else fields s' (10 * cur + (nat_of_ascii c - 48))
  end.

Fixpoint fields_lt (a b : list nat) : bool :=
  match a, b with
  | _, [] => false
  | [], _ :: _ => true
  | x :: a, y :: b =>
      if decide (x < y) then true
      else if decide (y < x) then false
      else fields_lt a b
  end.

(** Flow-style text of a document. *)
Fixpoint dump (d : document) : string :=
  match d with
  | Null => "null"
  | Bool true => "true"
  | Bool false => "false"
  | Num n => pretty n
  | Str s => "'" +:+ s +:+ "'"
  | Placeholder name => "!input " +:+ name
  | List items => "[" +:+ join ", " (map dump items) +:+ "]"
  | Mapping entries =>
      "{" +:+ join ", " (map (λ kv, kv.1 +:+ ": " +:+ dump kv.2) entries) +:+ "}"
  end.

(** The blueprint of the example scenario (specification, section 8). *)
Definition test_blueprint (service : document) : document :=
  Mapping [
    (CONF_BLUEPRINT, Mapping [
       (CONF_DOMAIN, Str "automation");
       (CONF_NAME, Str "Test");
       (CONF_INPUT, Mapping [("target", Mapping [])]) ]);
    ("action", Mapping [("service", service)]) ].

Definition declared_target : document := test_blueprint (Placeholder "target").
Definition undeclared_other : document := test_blueprint (Placeholder "other").

(** A blueprint with two inputs. *)
Definition dimmed_target : document :=
  Mapping [
    (CONF_BLUEPRINT, Mapping [
       (CONF_DOMAIN, Str "automation");
       (CONF_NAME, Str "Test");
       (CONF_INPUT, Mapping [("target", Mapping []); ("brightness", Mapping [])]) ]);
    ("action", Mapping [
       ("service", Placeholder "target");
       ("data", Mapping [("brightness", Placeholder "brightness")]) ]) ].

(** The same blueprint, asking for a minimum version. *)
Definition needs_version (min_version : string) : document :=
  Mapping [
    (CONF_BLUEPRINT, Mapping [
       (CONF_DOMAIN, Str "automation");
       (CONF_NAME, Str "Test");
       (CONF_HOMEASSISTANT, Mapping [(CONF_MIN_VERSION, Str min_version)]);
       (CONF_INPUT, Mapping [("target", Mapping [])]) ]);
    ("action", Mapping [("service", Placeholder "target")]) ].

(** The reader understands the text of the documents it knows. *)
Definition known_documents : list document :=
  [declared_target; undeclared_other].

(** The blueprint object of a document that the constructor accepts. *)
Definition blueprint_of (d : document) : Blueprint.t :=
  {| Blueprint.data := d;
     Blueprint.placeholders := placeholder.extract_placeholders d;
     Blueprint.domain := "automation" |}.

Definition parse (text : string) : result document :=
  match List.find (λ d, bool_decide (dump d = text)) known_documents with
  | Some d => Return d
  | None => Raise (HomeAssistantError "cannot parse")
  end.

Fixpoint strip_prefix (prefix s : string) : option string :=
  match prefix, s with
  | EmptyString, _ => Some s
  | String a prefix, String b s =>
      if decide (a = b) then strip_prefix prefix s else None
  | _, _ => None
  end.

Definition glob (files : gmap string string) (folder : string) : list string :=
  omap (λ f, if DomainBlueprints.endswith f ".yaml"
             then strip_prefix (folder +:+ "/") f else None)
       (elements (dom files)).

Lemma blueprint_schema_valid d d' :
  blueprint_schema d = inr d' → valid_blueprint_document d' = true.
Proof.
  unfold blueprint_schema.
  destruct (valid_blueprint_document d) eqn:E; congruence.
Qed.

Lemma instance_schema_valid c c' :
  instance_schema c = inr c' → valid_instance_config c' = true.
Proof.
  unfold instance_schema.
  destruct (valid_instance_config c) eqn:E; congruence.
Qed.

(** The disk of the scenario: what the Python library documents for
    [Path.exists], [Path.mkdir(parents=True, exist_ok=True)] and
    [Path.write_text] on a POSIX disk without symbolic links and without
    permissions.  A path is its components, the text between the [/],
    empty ones and [.] dropped as [pathlib] drops them; a file or
    directory is named by the components that lead to it. *)
Fixpoint split_slash (s cur : string) : list string :=
  match s with
  | EmptyString => [cur]
  | String c s' =>
      if decide (c = "/"%char) then cur :: split_slash s' ""
      else split_slash s' (cur +:+ String c "")
  end.

Definition components (path : string) : list string :=
  List.filter (λ c, negb (bool_decide (c = "")) && negb (bool_decide (c = ".")))
    (split_slash path "").

Definition name_of (stack : list string) : string :=
  foldr (λ c rest, "/" +:+ c +:+ rest) "" stack.

Definition is_file (files : gmap string string) (n : string) : bool :=
  bool_decide (is_Some (files !! n)).

(** A directory was made, or leads to a file or to a directory; the root
    is one. *)
Definition is_dir (files : gmap string string) (dirs : gset string) (n : string)
  : bool :=
  bool_decide (n = "") || bool_decide (n ∈ dirs)
  || existsb (String.prefix (n +:+ "/")) (elements (dom files ∪ dirs)).

Inductive walked : Type :=
  | Found (stack : list string)
  | NoEntry
  | NotADirectory.

(** Follow the components from the directory [stack]: every component but
    the last must lead to a directory, [..] goes up. *)
Fixpoint walk (files : gmap string string) (dirs : gset string)
    (stack comps : list string) : walked :=
  match comps with
  | [] => Found stack
  | c :: rest =>
      if decide (c = "..") then walk files dirs (removelast stack) rest
      else
        match rest with
        | [] => Found (stack ++ [c])
        | _ =>
            if is_dir files dirs (name_of (stack ++ [c]))
            then walk files dirs (stack ++ [c]) rest
            else if is_file files (name_of (stack ++ [c])) then NotADirectory
            else NoEntry
        end
  end.

Definition exists_at (files : gmap string string) (dirs : gset string)
    (comps : list string) : bool :=
  match walk files dirs [] comps with
  | Found stack => is_file files (name_of stack) || is_dir files dirs (name_of stack)
  | _ => false
  end.

Definition is_dir_at (files : gmap string string) (dirs : gset string)
    (comps : list string) : bool :=
  match walk files dirs [] comps with
  | Found stack => is_dir files dirs (name_of stack)
  | _ => false
  end.

(** [os.mkdir]: make the one directory. *)
Definition os_mkdir (files : gmap string string) (dirs : gset string)
    (comps : list string) : exception + gset string :=
  match walk files dirs [] comps with
  | NoEntry => inl (FileNotFoundError (name_of comps))
  | NotADirectory => inl (NotADirectoryError (name_of comps))
  | Found stack =>
      if bool_decide (last comps = Some "..") || exists_at files dirs comps
      then inl (FileExistsError (name_of comps))
      else inr ({[ name_of stack ]} ∪ dirs)
  end.

(** [Path.mkdir(parents=True, exist_ok=True)], on the components in
    reverse: a missing parent is made first, and an error other than that
    is let pass when the path is a directory. *)
Fixpoint mkdir_parents (files : gmap string string) (dirs : gset string)
    (reversed : list string) : option exception * gset string :=
  match os_mkdir files dirs (rev reversed) with
  | inr made => (None, made)
  | inl (FileNotFoundError f) =>
      match reversed with
      | [] => (Some (FileNotFoundError f), dirs)
      | _ :: parent =>
          match mkdir_parents files dirs parent with
          | (Some e, made) => (Some e, made)
          | (None, made) =>
              match os_mkdir files made (rev reversed) with
              | inr made' => (None, made')
              | inl (FileNotFoundError f') => (Some (FileNotFoundError f'), made)
              | inl e =>
                  if is_dir_at files made (rev reversed) then (None, made)
                  else (Some e, made)
              end
          end
      end
  | inl e =>
      if is_dir_at files dirs (rev reversed) then (None, dirs) else (Some e, dirs)
  end.

Definition open_for_writing (files : gmap string string) (dirs : gset string)
    (path : string) : exception + string :=
  match walk files dirs [] (components path) with
  | NoEntry => inl (FileNotFoundError path)
  | NotADirectory => inl (NotADirectoryError path)
  | Found stack =>
      if is_dir files dirs (name_of stack) then inl (IsADirectoryError path)
      else inr (name_of stack)
  end.

Lemma is_dir_insert files dirs fname (text : string) n :
  is_dir files dirs n = true → is_dir (<[fname := text]> files) dirs n = true.
Proof.
  unfold is_dir. rewrite !orb_true_iff, !existsb_exists.
  intros [Hn|(x & Hx & Hp)]; [by left|]. right. exists x. split; [|done].
  apply list_elem_of_In, elem_of_elements. apply list_elem_of_In, elem_of_elements in Hx.
  rewrite elem_of_union in Hx. rewrite dom_insert, !elem_of_union. tauto.
Qed.

Lemma walk_insert files dirs fname (text : string) comps stack found :
  walk files dirs stack comps = Found found →
  walk (<[fname := text]> files) dirs stack comps = Found found.
Proof.
  revert stack. induction comps as [|c rest IH]; intros stack; [done|].
  cbn [walk]. destruct (decide (c = "..")); [apply IH|].
  destruct rest as [|c' rest]; [done|].
  destruct (is_dir files dirs (name_of (stack ++ [c]))) eqn:Hd.
  - rewrite (is_dir_insert _ _ _ _ _ Hd). apply IH.
  - by destruct (is_file files (name_of (stack ++ [c]))).
Qed.

Lemma open_for_writing_exists files dirs path fname (text : string) :
  open_for_writing files dirs path = inr fname →
  exists_at (<[fname := text]> files) dirs (components path) = true.
Proof.
  unfold open_for_writing, exists_at.
  destruct (walk files dirs [] (components path)) as [found| |] eqn:Hw; try done.
  destruct (is_dir files dirs (name_of found)); [done|]. intros [= <-].
  rewrite (walk_insert _ _ _ _ _ _ _ Hw). unfold is_file.
  rewrite lookup_insert_eq. by rewrite bool_decide_eq_true_2.
Qed.

Definition collaborators : Collaborators := {|
  BLUEPRINT_SCHEMA := blueprint_schema;
  BLUEPRINT_SCHEMA_valid := blueprint_schema_valid;
  BLUEPRINT_INSTANCE_FIELDS := instance_schema;
  BLUEPRINT_INSTANCE_FIELDS_valid := instance_schema_valid;
  humanize_error := λ _ err, match err with Invalid msg => msg end;
  version := list nat;
  parse_version := λ s, fields s 0;
  version_lt := fields_lt;
  __version__ := "0.118.0";
  config_path := λ parts, "/config/" +:+ join "/" parts;
  yaml_dump := dump;
  yaml_parse := parse;
  glob_yaml := glob;
  path_exists := λ files dirs path, exists_at files dirs (components path);
  parent_mkdir := λ files dirs path,
    mkdir_parents files dirs (tail (rev (components path)));
  write_target := open_for_writing;
  path_exists_written := open_for_writing_exists;
|}.

(** The instance configuration of the example scenario. *)
Definition use_blueprint (inputs : dict) : dict :=
  [ ("alias", Str "Kitchen");
    (CONF_USE_BLUEPRINT, Mapping [
       (CONF_PATH, Str "test.yaml");
       (CONF_INPUT, Mapping inputs) ]) ].

Definition blueprint_file : string :=
  "/config/blueprints/automation/test.yaml".

(** The directories above [blueprint_file]. *)
Definition blueprint_folders : gset string :=
  {[ "/config"; "/config/blueprints"; "/config/blueprints/automation" ]}.

(** A registry for automations, with or without [test.yaml] on disk. *)
Definition empty_disk : DomainBlueprints.t :=
  DomainBlueprints.__init__ "automation".

Definition disk_with (d : document) : DomainBlueprints.t :=
  DomainBlueprints.set_files empty_disk {[ blueprint_file := dump d ]}.

(** A registry that has cached [test.yaml] as failed although its file,
    by now, loads. *)
Definition repaired_disk : DomainBlueprints.t :=
  DomainBlueprints.set_blueprints (disk_with declared_target) {[ "test.yaml" := None ]}.

(** The loop of two callers after the first has taken the lock and the
    second waits for it. *)
Definition two_callers_waiting : EventLoop.loop :=
  {| EventLoop.registry := empty_disk;
     EventLoop.locked := true;
     EventLoop.calls :=
       [ {| EventLoop.blueprint_path := "test.yaml";
            EventLoop.at_pc := EventLoop.Loading |};
         {| EventLoop.blueprint_path := "test.yaml";
            EventLoop.at_pc := EventLoop.AcquiringLock |} ] |}.

(** The loop of the two callers once both have finished: the load of the
    first failed, the second found the failure cached. *)
Definition two_callers_finished : EventLoop.loop :=
  {| EventLoop.registry :=
       {| DomainBlueprints.domain := "automation";
          DomainBlueprints._blueprints := {[ "test.yaml" := None ]};
          DomainBlueprints.files := ∅;
          DomainBlueprints.dirs := ∅;
          DomainBlueprints.disk_reads := [blueprint_file] |};
     EventLoop.locked := false;
     EventLoop.calls :=
       [ {| EventLoop.blueprint_path := "test.yaml";
            EventLoop.at_pc :=
              EventLoop.Finished
                (Raise (FailedToLoad "automation" "test.yaml"
                          (FileNotFoundError blueprint_file))) |};
         {| EventLoop.blueprint_path := "test.yaml";
            EventLoop.at_pc := EventLoop.Finished (Return None) |} ] |}.

(** Two endpoints of one Zigbee device, and a gateway that knows lights. *)
Definition endpoint (uniqueid : string) : DeconzBase.t :=
  {| DeconzBase._device :=
       {| DeconzBase.uniqueid := Some uniqueid;
          DeconzBase.manufacturer := "IKEA of Sweden";
          DeconzBase.modelid := "TRADFRI bulb";
          DeconzBase.name := "Kitchen";
          DeconzBase.swversion := "1.2.214" |};
     DeconzBase.gateway := {| DeconzBase.bridgeid := "00212EFFFF012345" |} |}.

Definition light (entity_id : string) : DeconzDevice.t :=
  {| DeconzDevice.base := endpoint "00:11:22:33:44:55:66:77-01";
     DeconzDevice.TYPE := "light";
     DeconzDevice.entity_id := entity_id;
     DeconzDevice.device_type := "Dimmable light";
     DeconzDevice.reachable := true;
     DeconzDevice.deconz_id := "/lights/1" |}.

Definition fresh_gateway : DeconzDevice.gateway_state :=
  {| DeconzDevice.entities := {[ "light" := ∅ ]};
     DeconzDevice.deconz_ids := ∅;
     DeconzDevice.ignore_state_updates := false;
     DeconzDevice.gateway_available := true;
     DeconzDevice.signal_reachable := "deconz-reachable-00212EFFFF012345";
     DeconzDevice.calls := [] |}.

End Scenario.

(** ** Vocabulary of the properties *)

(** [sub in s] on strings. *)
Fixpoint contains (sub s : string) : bool :=
  String.prefix sub s
  || match s with
     | EmptyString => false
     | String _ s' => contains sub s'
     end.

(** The exception is an [InvalidBlueprint] whose message names [x]. *)
Definition names_input (e : exception) (x : string) : bool :=
  match e with
  | InvalidBlueprint _ _ _ (Message msg) => contains x msg
  | _ => false
  end.

Definition is_InvalidBlueprint (e : exception) : bool :=
  match e with InvalidBlueprint _ _ _ _ => true | _ => false end.

(** The minimum version a metadata block asks for, if it asks for one. *)
Definition min_version_field (metadata : document) : option string :=
  match metadata with
  | Mapping meta =>
      match dict_get CONF_HOMEASSISTANT meta with
      | Some (Mapping ha) =>
          match dict_get CONF_MIN_VERSION ha with
          | Some (Str v) => Some v
          | _ => None
          end
      | _ => None
      end
  | _ => None
  end.

(** The reading of "the constructor raises [InvalidBlueprint] naming the
    missing input" for one call of the constructor. *)
Definition undeclared_placeholder_named `{Collaborators} (D : document)
    (path expected_domain : option string) : Prop :=
  ∀ D' I x,
    BLUEPRINT_SCHEMA D = inr D' →
    Blueprint.declared_inputs D' = Return I →
    x ∈ placeholder.extract_placeholders D' ∖ I →
    ∃ e, Blueprint.__init__ D path expected_domain = Raise e
         ∧ is_InvalidBlueprint e = true
         ∧ names_input e x = true.



(** The reading of "all callers receive equal results": the calls of a
    loop have all finished, and with one and the same outcome. *)
Definition equal_results (l : EventLoop.loop) : Prop :=
  ∃ r, ∀ c, c ∈ EventLoop.calls l → EventLoop.at_pc c = EventLoop.Finished r.

(** What a listing by [_load_blueprints] says agrees with the cache: a
    blueprint listed for a path is the cached one, an error listed for a
    path is the blueprint exception that loading the path's file raises,
    and the path is then cached as [None]. *)
Definition results_agree `{Collaborators} (self : DomainBlueprints.t)
    (results : gmap string (exception + option Blueprint.t))
    (cache : gmap string (option Blueprint.t)) : Prop :=
  ∀ p entry, results !! p = Some entry →
    match entry with
    | inr (Some b) => cache !! p = Some (Some b)
    | inr None => False
    | inl err =>
        cache !! p = Some None
        ∧ DomainBlueprints.is_BlueprintException err = true
        ∧ (DomainBlueprints._load_blueprint self p).1 = Raise err
    end.

(** Where the blueprints of a cache come from: they were cached in [self]
    already, or they are what loading the path's file in [self] returns. *)
Definition cache_origin `{Collaborators} (self : DomainBlueprints.t)
    (cache : gmap string (option Blueprint.t)) : Prop :=
  ∀ p b, cache !! p = Some (Some b) →
    DomainBlueprints._blueprints self !! p = Some (Some b)
    ∨ (DomainBlueprints._load_blueprint self p).1 = Return b.

(** The states of an event loop that runs calls for one uncached path. *)
Section loop_invariant.
Context `{Collaborators}.
Import EventLoop.

(** Before the load has returned: the registry is untouched, the lock is
    held exactly by the one call that is loading, if any. *)
Definition before_load (self : DomainBlueprints.t) (path : string)
    (holder : option nat) (l : loop) : Prop :=
  registry l = self
  ∧ locked l = bool_decide (is_Some holder)
  ∧ ∀ i c, calls l !! i = Some c →
      blueprint_path c = path
      ∧ if decide (holder = Some i) then at_pc c = Loading
        else at_pc c = Created ∨ at_pc c = AcquiringLock.

(** After the load has returned: the registry is the one the loading call
    left, the lock is free, and a call that has finished is the loading
    call or has been answered from the cache. *)
Definition after_load (self : DomainBlueprints.t) (path : string) (l : loop)
  : Prop :=
  registry l = (finish_load self path).2
  ∧ locked l = false
  ∧ ∀ i c, calls l !! i = Some c →
      blueprint_path c = path
      ∧ (at_pc c = Created ∨ at_pc c = AcquiringLock
         ∨ at_pc c = (finish_load self path).1
         ∨ at_pc c = Finished
                       (Return (default None
                          (DomainBlueprints._blueprints (finish_load self path).2
                             !! path)))).

Definition loop_invariant (self : DomainBlueprints.t) (path : string) (l : loop)
  : Prop :=
  (∃ holder, before_load self path holder l) ∨ after_load self path l.

End loop_invariant.

(** * Properties *)

Ltac unfold_result :=
  unfold mbind, result_bind, mret, result_ret in *.

(** ** Strings *)

Lemma prefix_app (x s : string) : String.prefix x (x +:+ s) = true.
Proof.
  induction x as [|a x IH]; simpl; [by destruct s|].
  rewrite IH. by destruct (Ascii.ascii_dec a a).
Qed.

Lemma contains_prefix (x t : string) :
  String.prefix x t = true → contains x t = true.
Proof. destruct t; simpl; by intros ->. Qed.

Lemma contains_here (x s : string) : contains x (x +:+ s) = true.
Proof. apply contains_prefix, prefix_app. Qed.

Lemma contains_self (x : string) : contains x x = true.
Proof.
  apply contains_prefix. induction x as [|a x IH]; simpl; [done|].
  rewrite IH. by destruct (Ascii.ascii_dec a a).
Qed.

Lemma contains_app_l (x pre s : string) :
  contains x s = true → contains x (pre +:+ s) = true.
Proof.
  intros Hs. induction pre as [|a pre IH]; simpl; [done|].
  rewrite IH. apply orb_true_r.
Qed.

Lemma contains_join (x sep : string) (l : list string) :
  x ∈ l → contains x (join sep l) = true.
Proof.
  induction l as [|y l IH]; [by intros ?%elem_of_nil|].
  intros [->|Hx]%elem_of_cons.
  - destruct l; simpl; [apply contains_self | apply contains_here].
  - destruct l as [|z l]; [by apply elem_of_nil in Hx|].
    change (join sep (y :: z :: l)) with (y +:+ sep +:+ join sep (z :: l)).
    apply contains_app_l, contains_app_l. by apply IH.
Qed.

(** ** Documents accepted by the schema *)

Lemma valid_document_shape (d : document) :
  valid_blueprint_document d = true →
  ∃ top meta dom nm ins,
    d = Mapping top
    ∧ dict_get CONF_BLUEPRINT top = Some (Mapping meta)
    ∧ dict_get CONF_DOMAIN meta = Some (Str dom)
    ∧ dict_get CONF_NAME meta = Some (Str nm)
    ∧ dict_get CONF_INPUT meta = Some (Mapping ins).
Proof.
  unfold valid_blueprint_document, is_str, is_mapping.
  destruct d as [| | | | | |top]; try done.
  destruct (dict_get CONF_BLUEPRINT top) as [[| | | | | |meta]|] eqn:Hm; try done.
  destruct (dict_get CONF_DOMAIN meta) as [[| | |dom| | |]|] eqn:Hd; try done.
  destruct (dict_get CONF_NAME meta) as [[| | |nm| | |]|] eqn:Hn; try done.
  destruct (dict_get CONF_INPUT meta) as [[| | | | | |ins]|] eqn:Hi; try done.
  intros _. by exists top, meta, dom, nm, ins.
Qed.

Section blueprint_properties.
Context `{Collaborators}.
Import placeholder.

Lemma valid_domain_of (d : document) :
  valid_blueprint_document d = true → ∃ dom, Blueprint.domain_of d = Return dom.
Proof.
  intros (top & meta & dom & nm & ins & -> & Hm & Hd & _)%valid_document_shape.
  exists dom. unfold Blueprint.domain_of, getitem. unfold_result.
  by rewrite Hm, Hd.
Qed.

Lemma valid_name_of (d : document) :
  valid_blueprint_document d = true → ∃ nm, Blueprint.name_of d = Return nm.
Proof.
  intros (top & meta & dom & nm & ins & -> & Hm & _ & Hn & _)%valid_document_shape.
  exists nm. unfold Blueprint.name_of, getitem. unfold_result.
  by rewrite Hm, Hn.
Qed.

Lemma valid_path_or_name (path : option string) (d : document) :
  valid_blueprint_document d = true →
  ∃ nm, Blueprint.path_or_name path d = Return nm.
Proof.
  intros [nm Hnm]%valid_name_of. unfold Blueprint.path_or_name.
  destruct path as [p|]; [|by exists nm].
  destruct (decide (p = "")); [by exists nm | by exists p].
Qed.

Lemma valid_declared_inputs (d : document) :
  valid_blueprint_document d = true →
  ∃ I, Blueprint.declared_inputs d = Return I.
Proof.
  intros (top & meta & dom & nm & ins & -> & Hm & _ & _ & Hi)%valid_document_shape.
  exists (list_to_set (dict_keys ins)).
  unfold Blueprint.declared_inputs, getitem. unfold_result.
  by rewrite Hm, Hi.
Qed.

(** When the constructor returns, and what it returns. *)
Lemma Blueprint_init_Return (D D' : document) (I : gset string) (dom : string)
    (path expected_domain : option string) :
  BLUEPRINT_SCHEMA D = inr D' →
  Blueprint.domain_of D' = Return dom →
  Blueprint.declared_inputs D' = Return I →
  Blueprint.domain_mismatch expected_domain dom = false →
  extract_placeholders D' ⊆ I →
  Blueprint.__init__ D path expected_domain
  = Return {| Blueprint.data := D';
              Blueprint.placeholders := extract_placeholders D';
              Blueprint.domain := dom |}.
Proof.
  intros HS Hdom HI Hmis Hsub. unfold Blueprint.__init__.
  rewrite HS, Hdom. unfold_result. rewrite Hmis, HI.
  destruct (decide (extract_placeholders D' ∖ I = ∅)) as [|Hne]; [done|].
  destruct Hne. apply elem_of_equiv_empty_L.
  intros x [Hx Hn]%elem_of_difference. apply Hn, Hsub, Hx.
Qed.

(** What is known of a blueprint that the constructor returned. *)
Lemma Blueprint_init_inv (D : document) (path expected_domain : option string)
    (b : Blueprint.t) :
  Blueprint.__init__ D path expected_domain = Return b →
  ∃ I, BLUEPRINT_SCHEMA D = inr (Blueprint.data b)
       ∧ valid_blueprint_document (Blueprint.data b) = true
       ∧ Blueprint.placeholders b = extract_placeholders (Blueprint.data b)
       ∧ Blueprint.domain_of (Blueprint.data b) = Return (Blueprint.domain b)
       ∧ Blueprint.domain_mismatch expected_domain (Blueprint.domain b) = false
       ∧ Blueprint.declared_inputs (Blueprint.data b) = Return I
       ∧ Blueprint.placeholders b ⊆ I.
Proof.
  unfold Blueprint.__init__.
  destruct (BLUEPRINT_SCHEMA D) as [err|D'] eqn:HS; [done|].
  pose proof (BLUEPRINT_SCHEMA_valid _ _ HS) as Hv.
  destruct (Blueprint.domain_of D') as [e|dom] eqn:Hdom; [done|].
  unfold_result.
  destruct (Blueprint.domain_mismatch expected_domain dom) eqn:Hmis.
  { by destruct (Blueprint.path_or_name path D'). }
  destruct (Blueprint.declared_inputs D') as [e|I] eqn:HI; [done|].
  destruct (decide (extract_placeholders D' ∖ I = ∅)) as [Hempty|Hne].
  - intros [= <-]; simpl. exists I. repeat split; try done.
    intros x Hx. destruct (decide (x ∈ I)) as [|Hn]; [done|].
    destruct (not_elem_of_empty (C:=gset string) x).
    rewrite <- Hempty. by apply elem_of_difference.
  - by destruct (Blueprint.path_or_name path D').
Qed.

(** C1. For a document [D] that the blueprint schema accepts (as [D'],
    the validated document the constructor goes on with) and whose
    declared input keys [I] include every placeholder referenced in it,
    [Blueprint(D)] returns a blueprint; its [placeholders] are
    [extract_placeholders] of the document and are included in [I]. *)
Theorem Blueprint_placeholders_declared (D D' : document) (I : gset string)
    (path : option string) :
  BLUEPRINT_SCHEMA D = inr D' →
  Blueprint.declared_inputs D' = Return I →
  extract_placeholders D' ⊆ I →
  ∃ b, Blueprint.__init__ D path None = Return b
       ∧ Blueprint.data b = D'
       ∧ Blueprint.placeholders b = extract_placeholders D'
       ∧ Blueprint.placeholders b ⊆ I.
Proof.
  intros HS HI Hsub.
  destruct (valid_domain_of D' (BLUEPRINT_SCHEMA_valid _ _ HS)) as [dom Hdom].
  eexists. split.
  - by apply (Blueprint_init_Return D D' I dom).
  - done.
Qed.

(** The constructor raises [InvalidBlueprint] whenever a placeholder of
    the validated document is not declared. *)
Lemma Blueprint_init_missing (D D' : document) (I : gset string) (dom : string)
    (path expected_domain : option string) :
  BLUEPRINT_SCHEMA D = inr D' →
  Blueprint.domain_of D' = Return dom →
  Blueprint.declared_inputs D' = Return I →
  extract_placeholders D' ∖ I ≠ ∅ →
  ∃ nm, Blueprint.path_or_name path D' = Return nm
    ∧ Blueprint.__init__ D path expected_domain
      = Raise (InvalidBlueprint
                 (if Blueprint.domain_mismatch expected_domain dom
                  then expected_domain else Some dom)
                 (Some nm) D'
                 (Message
                    (if Blueprint.domain_mismatch expected_domain dom
                     then "Found incorrect blueprint type " +:+ dom
                          +:+ ", expected " +:+ Blueprint.format expected_domain
                     else "Missing input definition for "
                          +:+ join ", " (elements (extract_placeholders D' ∖ I))))).
Proof.
  intros HS Hdom HI Hne.
  destruct (valid_path_or_name path D' (BLUEPRINT_SCHEMA_valid _ _ HS)) as [nm Hnm].
  exists nm. split; [done|]. unfold Blueprint.__init__.
  rewrite HS, Hdom. unfold_result.
  destruct (Blueprint.domain_mismatch expected_domain dom); rewrite ?HI, Hnm; [done|].
  by destruct (decide (extract_placeholders D' ∖ I = ∅)).
Qed.

(** C2, as the code has it.  For a document that the schema accepts and
    that references a placeholder missing from the declared inputs, the
    constructor raises [InvalidBlueprint] and returns no blueprint,
    whatever path and expected domain it is given.  When no expected
    domain is given or the expected domain is the document's, the
    exception is the one of the missing inputs: it carries the document's
    domain, the path or else the name, the document, and the message that
    lists every missing input.  On a domain mismatch the exception is the
    one of the mismatch: it carries the expected domain and the message
    that gives the two domains. *)
Theorem Blueprint_undeclared_placeholder (D D' : document) (I : gset string)
    (path expected_domain : option string) :
  BLUEPRINT_SCHEMA D = inr D' →
  Blueprint.declared_inputs D' = Return I →
  extract_placeholders D' ∖ I ≠ ∅ →
  ∃ dom nm e,
    Blueprint.domain_of D' = Return dom
    ∧ Blueprint.path_or_name path D' = Return nm
    ∧ Blueprint.__init__ D path expected_domain = Raise e
    ∧ is_InvalidBlueprint e = true
    ∧ (Blueprint.domain_mismatch expected_domain dom = false →
       e = InvalidBlueprint (Some dom) (Some nm) D'
             (Message ("Missing input definition for "
                       +:+ join ", " (elements (extract_placeholders D' ∖ I))))
       ∧ ∀ x, x ∈ extract_placeholders D' ∖ I → names_input e x = true)
    ∧ (Blueprint.domain_mismatch expected_domain dom = true →
       e = InvalidBlueprint expected_domain (Some nm) D'
             (Message ("Found incorrect blueprint type " +:+ dom
                       +:+ ", expected " +:+ Blueprint.format expected_domain))).
Proof.
  intros HS HI Hne.
  destruct (valid_domain_of D' (BLUEPRINT_SCHEMA_valid _ _ HS)) as [dom Hdom].
  destruct (Blueprint_init_missing D D' I dom path expected_domain)
    as (nm & Hnm & ->); try done.
  exists dom, nm. eexists. do 3 (split; [done|]).
  split; [by destruct (Blueprint.domain_mismatch expected_domain dom)|].
  split; intros ->; [|done]. split; [done|].
  intros x Hx. cbn [names_input].
  apply contains_app_l, contains_join, elem_of_elements, Hx.
Qed.

End blueprint_properties.

(** ** Dictionaries *)

Lemma dict_get_Some_keys (k : string) (d : dict) (v : document) :
  dict_get k d = Some v → k ∈ dict_keys d.
Proof.
  induction d as [|[k' v'] d IH]; csimpl; [done|].
  destruct (decide (k' = k)) as [->|]; intros Hg.
  - apply elem_of_cons; by left.
  - apply elem_of_cons; right; by apply IH.
Qed.

Lemma dict_get_None_keys (k : string) (d : dict) :
  dict_get k d = None ↔ k ∉ dict_keys d.
Proof.
  induction d as [|[k' v'] d IH]; csimpl.
  - split; [intros _; apply not_elem_of_nil | done].
  - rewrite not_elem_of_cons. destruct (decide (k' = k)) as [->|Hne].
    + split; [done | by intros [? _]].
    + rewrite IH. split; [by intros ? | by intros [_ ?]].
Qed.

Lemma dict_get_set (k k' : string) (v : document) (d : dict) :
  dict_get k' (dict_set k v d) = if decide (k = k') then Some v else dict_get k' d.
Proof.
  induction d as [|[k0 v0] d IH]; csimpl.
  - done.
  - destruct (decide (k0 = k)) as [->|Hne]; csimpl.
    + by destruct (decide (k = k')).
    + rewrite IH. destruct (decide (k0 = k')) as [->|]; [|done].
      by destruct (decide (k = k')) as [->|].
Qed.










(** ** The placeholder engine *)

(** Induction on documents, with the property available for the items of a
    list and for the values of a mapping. *)
Lemma document_rect' (P : document → Prop) :
  P Null → (∀ b, P (Bool b)) → (∀ n, P (Num n)) → (∀ s, P (Str s)) →
  (∀ name, P (Placeholder name)) →
  (∀ items, Forall P items → P (List items)) →
  (∀ entries, Forall (λ kv, P kv.2) entries → P (Mapping entries)) →
  ∀ d, P d.
Proof.
  intros HNull HBool HNum HStr HPl HList HMap.
  fix IH 1. intros [| b | n | s | name | items | entries].
  - apply HNull.
  - apply HBool.
  - apply HNum.
  - apply HStr.
  - apply HPl.
  - apply HList. induction items as [|d items IHitems]; constructor; [apply IH | done].
  - apply HMap. induction entries as [|[k d] entries IHentries]; constructor;
      [apply IH | done].
Qed.

Section engine_properties.
Import placeholder.

Lemma substitute_Mapping (entries substitutions : dict) :
  substitute (Mapping entries) substitutions
  = (entries' ← substitute_entries substitutions entries; Return (Mapping entries')).
Proof. done. Qed.

Lemma substitute_List (items : list document) (substitutions : dict) :
  substitute (List items) substitutions
  = (items' ← substitute_items substitutions items; Return (List items')).
Proof. done. Qed.



End engine_properties.

(** ** Blueprint inputs *)

Section inputs_properties.
Context `{Collaborators}.
Import placeholder.

(** C3. For a [BlueprintInputs] object built on a constructed blueprint
    and on a configuration whose use-blueprint section [use] holds the
    input mapping [ins], [validate()] raises [MissingPlaceholder] with the
    blueprint's domain, the blueprint's name (the domain and the name of
    the metadata of the blueprint's document) and the set of missing
    names exactly when [blueprint.placeholders] (the placeholders of the
    document) minus the keys of [ins] is not empty, and returns exactly
    when that set is empty.  [validate] is a function of the object to its
    outcome: it has no state to change. *)
Theorem BlueprintInputs_validate_missing (D : document)
    (path expected_domain : option string) (b : Blueprint.t)
    (config use ins : dict) :
  Blueprint.__init__ D path expected_domain = Return b →
  dict_get CONF_USE_BLUEPRINT config = Some (Mapping use) →
  dict_get CONF_INPUT use = Some (Mapping ins) →
  ∃ top meta nm,
    Blueprint.data b = Mapping top
    ∧ dict_get CONF_BLUEPRINT top = Some (Mapping meta)
    ∧ dict_get CONF_DOMAIN meta = Some (Str (Blueprint.domain b))
    ∧ dict_get CONF_NAME meta = Some (Str nm)
    ∧ Blueprint.placeholders b = extract_placeholders (Blueprint.data b)
    ∧ (BlueprintInputs.validate
         {| BlueprintInputs.blueprint := b;
            BlueprintInputs.config_with_inputs := config |}
       = Raise (MissingPlaceholder (Blueprint.domain b) nm
                  (Blueprint.placeholders b ∖ list_to_set (dict_keys ins)))
       ↔ Blueprint.placeholders b ∖ list_to_set (dict_keys ins) ≠ ∅)
    ∧ (BlueprintInputs.validate
         {| BlueprintInputs.blueprint := b;
            BlueprintInputs.config_with_inputs := config |}
       = Return ()
       ↔ Blueprint.placeholders b ∖ list_to_set (dict_keys ins) = ∅).
Proof.
  intros (I & _ & Hv & Hp & Hdom & _)%Blueprint_init_inv Hcfg Huse.
  destruct (valid_document_shape _ Hv)
    as (top & meta & dom & nm & declared & Hdata & Hm & Hd & Hn & _).
  exists top, meta, nm.
  assert (dom = Blueprint.domain b) as ->.
  { rewrite Hdata in Hdom. unfold Blueprint.domain_of, getitem in Hdom.
    unfold_result. rewrite Hm, Hd in Hdom. simpl in Hdom. congruence. }
  do 5 (split; [done|]).
  unfold BlueprintInputs.validate, BlueprintInputs.inputs, getitem.
  cbn [BlueprintInputs.config_with_inputs BlueprintInputs.blueprint].
  rewrite Hcfg. unfold_result. rewrite Huse. cbn [set_of_keys].
  unfold Blueprint.name, Blueprint.name_of, getitem. rewrite Hdata, Hm. unfold_result.
  rewrite Hn. cbn [as_str].
  destruct (decide (Blueprint.placeholders b ∖ list_to_set (dict_keys ins) = ∅))
    as [He|Hne]; split; split; try done.
Qed.

(** C8. For a constructed blueprint, whose document holds the metadata
    [meta] under the blueprint key, [validate] (the environment check)
    returns [None] when the metadata has no minimum version or the
    running version is not below it, and otherwise returns the one-element
    list with the message that names the minimum version.  "At least" is
    "not below" in the order of [parse_version].  The method is a function
    of the blueprint to its outcome. *)
Theorem Blueprint_validate_min_version (D : document)
    (path expected_domain : option string) (b : Blueprint.t) :
  Blueprint.__init__ D path expected_domain = Return b →
  ∃ top meta,
    Blueprint.data b = Mapping top
    ∧ dict_get CONF_BLUEPRINT top = Some (Mapping meta)
    ∧ match min_version_field (Mapping meta) with
      | None => Blueprint.validate b = Return None
      | Some min_version =>
          if version_lt (parse_version __version__) (parse_version min_version)
          then Blueprint.validate b
               = Return (Some ["Requires at least Home Assistant " +:+ min_version])
               ∧ contains min_version
                   ("Requires at least Home Assistant " +:+ min_version) = true
          else Blueprint.validate b = Return None
      end.
Proof.
  intros (I & _ & Hv & _)%Blueprint_init_inv.
  unfold Blueprint.validate, Blueprint.metadata.
  destruct (Blueprint.data b) as [| | | | | |top]; try done.
  unfold valid_blueprint_document in Hv. unfold getitem.
  destruct (dict_get CONF_BLUEPRINT top) as [[| | | | | |meta]|] eqn:Hm; try done.
  exists top, meta. split; [done|]. split; [done|].
  apply andb_prop in Hv as [_ Hha]. unfold_result.
  unfold min_version_field, get_default.
  destruct (dict_get CONF_HOMEASSISTANT meta) as [[| | | | | |ha]|]; try done.
  destruct (dict_get CONF_MIN_VERSION ha) as [[| | |v| | |]|]; try done.
  destruct (version_lt (parse_version __version__) (parse_version v)); [|done].
  split; [done|]. apply contains_app_l, contains_self.
Qed.


End inputs_properties.

(** ** The registry *)

Lemma substring_all (s : string) : String.substring 0 (String.length s) s = s.
Proof. induction s as [|a s IH]; simpl; [done | by rewrite IH]. Qed.

Lemma substring_skip (pre s : string) (m : nat) :
  String.substring (String.length pre) m (pre +:+ s) = String.substring 0 m s.
Proof. induction pre as [|a pre IH]; simpl; [done | apply IH]. Qed.

Lemma length_app (pre s : string) :
  String.length (pre +:+ s) = String.length pre + String.length s.
Proof. induction pre as [|a pre IH]; simpl; [done | by rewrite IH]. Qed.

Lemma endswith_app (pre suffix : string) :
  DomainBlueprints.endswith (pre +:+ suffix) suffix = true.
Proof.
  unfold DomainBlueprints.endswith. rewrite length_app.
  apply andb_true_intro. split; apply bool_decide_eq_true; [lia|].
  replace (String.length pre + String.length suffix - String.length suffix)
    with (String.length pre) by lia.
  by rewrite substring_skip, substring_all.
Qed.

Lemma with_extension_endswith (blueprint_path : string) :
  DomainBlueprints.endswith (DomainBlueprints.with_extension blueprint_path) ".yaml"
  = true.
Proof.
  unfold DomainBlueprints.with_extension.
  destruct (DomainBlueprints.endswith blueprint_path ".yaml") eqn:E; [done|].
  apply endswith_app.
Qed.

Section registry_properties.
Context `{Collaborators}.
Import DomainBlueprints.


(** [_load_blueprint] reads the disk but changes neither it nor the cache. *)
Lemma load_blueprint_state (self : t) (blueprint_path : string) :
  (_load_blueprint self blueprint_path).2
  = log_read self (file_of self blueprint_path).
Proof.
  unfold _load_blueprint, load_yaml. simpl.
  destruct (files self !! file_of self blueprint_path) as [text|]; simpl.
  - destruct (yaml_parse text) as [e|d]; [by destruct (is_load_error e) | done].
  - done.
Qed.

(** A cached path is answered from the cache: the registry, its disk and
    its log of reads stay as they are. *)
Lemma get_blueprint_cached (self : t) (blueprint_path : string)
    (entry : option Blueprint.t) :
  _blueprints self !! blueprint_path = Some entry →
  async_get_blueprint self blueprint_path = (Return entry, self).
Proof. intros Hc. unfold async_get_blueprint. by rewrite Hc. Qed.

Lemma load_blueprints_loop_cached (paths : list string)
    (results : gmap string (exception + option Blueprint.t)) (self : t)
    (blueprint_path : string) :
  is_Some (_blueprints self !! blueprint_path) →
  is_Some (_blueprints (_load_blueprints_loop paths results self).2 !! blueprint_path).
Proof.
  revert results self. induction paths as [|p paths IH]; intros results self Hc;
    simpl; [done|].
  destruct (get_is_None self p).
  - pose proof (load_blueprint_state self p) as Hst.
    destruct (_load_blueprint self p) as [[e|b] self'] eqn:Hl; simpl in Hst; subst self'.
    + destruct (is_BlueprintException e); simpl; [|done].
      apply IH. simpl. rewrite lookup_insert.
      by destruct (decide (p = blueprint_path)).
    + apply IH. simpl. rewrite lookup_insert.
      by destruct (decide (p = blueprint_path)).
  - by apply IH.
Qed.

(** Only [async_reset_cache] takes a path out of the cache. *)
Lemma perform_cached (op : operation) (self : t) (blueprint_path : string) :
  is_reset op = false →
  is_Some (_blueprints self !! blueprint_path) →
  is_Some (_blueprints (perform op self) !! blueprint_path).
Proof.
  intros Hop Hc. destruct op as [| |p|config|p|b p|fname text|fname];
    try done; simpl.
  - by apply load_blueprints_loop_cached.
  - unfold async_get_blueprint.
    destruct (_blueprints self !! p) eqn:Hp; [done|].
    pose proof (load_blueprint_state self p) as Hst.
    destruct (_load_blueprint self p) as [[e|b] self'] eqn:Hl;
      simpl in Hst; subst self'; simpl; rewrite lookup_insert;
      by destruct (decide (p = blueprint_path)).
  - unfold async_inputs_from_config.
    destruct (BLUEPRINT_INSTANCE_FIELDS config) as [|config']; [done|].
    destruct (_ ← getitem (Mapping config') CONF_USE_BLUEPRINT; _) as [|p]; [done|].
    assert (is_Some (_blueprints (async_get_blueprint self p).2 !! blueprint_path))
      as Hget.
    { unfold async_get_blueprint.
      destruct (_blueprints self !! p) eqn:Hp; [done|].
      pose proof (load_blueprint_state self p) as Hst.
      destruct (_load_blueprint self p) as [[e|b] self'] eqn:Hl;
        simpl in Hst; subst self'; simpl; rewrite lookup_insert;
        by destruct (decide (p = blueprint_path)). }
    destruct (async_get_blueprint self p) as [[e|[b|]] self']; try done.
    by destruct (BlueprintInputs.validate _).
  - unfold async_remove_blueprint.
    destruct (files self !! file_of self p); [|done].
    simpl. rewrite lookup_insert. by destruct (decide (p = blueprint_path)).
  - unfold async_add_blueprint, _create_file.
    destruct (path_exists _ _ _); [done|].
    destruct (parent_mkdir _ _ _) as [[e|] made]; [done|]. simpl.
    destruct (write_target _ _ _); [done|].
    simpl. rewrite lookup_insert.
    by destruct (decide (with_extension p = blueprint_path)).
Qed.

Lemma run_cached (ops : list operation) (self : t) (blueprint_path : string) :
  forallb (λ op, negb (is_reset op)) ops = true →
  is_Some (_blueprints self !! blueprint_path) →
  is_Some (_blueprints (run ops self) !! blueprint_path).
Proof.
  revert self. induction ops as [|op ops IH]; intros self Hops Hc; [done|].
  simpl in Hops. apply andb_prop in Hops as [Hop Hops].
  apply (IH _ Hops), perform_cached; [|done].
  by destruct (is_reset op).
Qed.

(** C6. When the path is not cached and its load fails with [e],
    [async_get_blueprint] raises [e] and leaves [None] in the cache for
    the path.  After that and after any further operations on the
    registry or on the disk other than a reset of the cache, every
    [async_get_blueprint] for the path is answered from the cache: it
    returns the cached entry and the registry, with its log of disk reads,
    is as before the call. *)
Theorem failed_load_is_not_retried (self self' : t) (blueprint_path : string)
    (e : exception) :
  _blueprints self !! blueprint_path = None →
  _load_blueprint self blueprint_path = (Raise e, self') →
  ∃ failed,
    async_get_blueprint self blueprint_path = (Raise e, failed)
    ∧ cached_failed failed blueprint_path
    ∧ disk_reads failed = disk_reads self ++ [file_of self blueprint_path]
    ∧ async_get_blueprint failed blueprint_path = (Return None, failed)
    ∧ ∀ ops, forallb (λ op, negb (is_reset op)) ops = true →
        ∃ entry,
          async_get_blueprint (run ops failed) blueprint_path
          = (Return entry, run ops failed).
Proof.
  intros Hnone Hload.
  pose proof (load_blueprint_state self blueprint_path) as Hst.
  rewrite Hload in Hst. simpl in Hst. subst self'.
  set (failed := set_blueprints (log_read self (file_of self blueprint_path))
                   (<[blueprint_path:=None]>
                      (_blueprints (log_read self (file_of self blueprint_path))))).
  assert (Hc : cached_failed failed blueprint_path)
    by (unfold cached_failed; simpl; apply lookup_insert_eq).
  exists failed. split.
  { unfold async_get_blueprint. by rewrite Hnone, Hload. }
  split; [done|]. split; [done|].
  split; [by apply get_blueprint_cached|].
  intros ops Hops.
  destruct (run_cached ops failed blueprint_path Hops) as [entry Hentry].
  { unfold cached_failed in Hc. by rewrite Hc. }
  exists entry. by apply get_blueprint_cached.
Qed.


End registry_properties.

(** ** Concurrent calls *)

Section loop_properties.
Context `{Collaborators}.
Import EventLoop.

Lemma finish_load_cached (self : DomainBlueprints.t) (path : string) :
  is_Some (DomainBlueprints._blueprints (finish_load self path).2 !! path).
Proof.
  unfold finish_load.
  destruct (DomainBlueprints._load_blueprint self path) as [[e|b] self'];
    simpl; rewrite lookup_insert_eq; by eexists.
Qed.

Lemma gather_invariant (self : DomainBlueprints.t) (path : string) (n : nat) :
  loop_invariant self path (gather self path n).
Proof.
  left. exists None. split; [done|]. split; [done|].
  intros i c [-> _]%lookup_replicate. split; [done|]. simpl. by left.
Qed.

Lemma step_invariant (self : DomainBlueprints.t) (path : string) (i : nat)
    (l l' : loop) :
  DomainBlueprints._blueprints self !! path = None →
  loop_invariant self path l → step i l = Some l' → loop_invariant self path l'.
Proof.
  intros Hnone Hinv Hstep. unfold step in Hstep.
  destruct (calls l !! i) as [c|] eqn:Hc; [|done]. simpl in Hstep.
  destruct (resume c (registry l) (locked l)) as [[[p self'] lock']|] eqn:Hres;
    [|done].
  simpl in Hstep. injection Hstep as <-.
  destruct Hinv as [[holder (Hreg & Hlock & Hcalls)]|(Hreg & Hlock & Hcalls)].
  - (* the load has not returned yet *)
    destruct (Hcalls i c Hc) as [Hpath Hpc].
    unfold resume in Hres. rewrite Hpath, Hreg, Hnone, Hlock in Hres.
    unfold check_again in Hres. rewrite Hnone in Hres.
    destruct (decide (holder = Some i)) as [->|Hne].
    + (* the loading call finishes *)
      rewrite Hpc in Hres.
      destruct (finish_load self path) as [p0 self0] eqn:Hfin.
      injection Hres as <- <- <-.
      right. unfold after_load. rewrite Hfin. split; [done|]. split; [done|].
      intros k c' Hk. simpl in Hk.
      apply list_lookup_insert_Some in Hk as [(<- & <- & _)|[Hik Hk]].
      * split; [done|]. simpl. right; right; by left.
      * destruct (Hcalls k c' Hk) as [Hp' Hpc'].
        rewrite decide_False in Hpc' by congruence.
        split; [done|]. destruct Hpc' as [->| ->]; [by left | right; by left].
    + destruct Hpc as [Hpc|Hpc]; rewrite Hpc in Hres.
      * (* a new call: waits for the lock, or takes it and loads *)
        destruct holder as [j|]; simpl in Hres; injection Hres as <- <- <-.
        -- left. exists (Some j). split; [done|]. split; [done|].
           intros k c' Hk. simpl in Hk.
           apply list_lookup_insert_Some in Hk as [(<- & <- & _)|[Hik Hk]].
           ++ split; [done|]. rewrite decide_False by done. by right.
           ++ by apply Hcalls.
        -- left. exists (Some i). split; [done|]. split; [done|].
           intros k c' Hk. simpl in Hk.
           apply list_lookup_insert_Some in Hk as [(<- & <- & _)|[Hik Hk]].
           ++ split; [done|]. by rewrite decide_True.
           ++ destruct (Hcalls k c' Hk) as [Hp' Hpc'].
              rewrite decide_False in Hpc' by done.
              split; [done|]. rewrite decide_False by congruence. done.
      * (* a waiting call: can only run when the lock is free *)
        destruct holder as [j|]; simpl in Hres; [done|].
        injection Hres as <- <- <-.
        left. exists (Some i). split; [done|]. split; [done|].
        intros k c' Hk. simpl in Hk.
        apply list_lookup_insert_Some in Hk as [(<- & <- & _)|[Hik Hk]].
        -- split; [done|]. by rewrite decide_True.
        -- destruct (Hcalls k c' Hk) as [Hp' Hpc'].
           rewrite decide_False in Hpc' by done.
           split; [done|]. rewrite decide_False by congruence. done.
  - (* the load has returned: answers come from the cache *)
    destruct (Hcalls i c Hc) as [Hpath Hpc].
    destruct (finish_load_cached self path) as [entry Hentry].
    assert (Hfirst : ∃ r, (finish_load self path).1 = Finished r).
    { unfold finish_load.
      destruct (DomainBlueprints._load_blueprint self path) as [[e|b] ?];
        by eexists. }
    destruct Hfirst as [r0 Hfirst].
    unfold resume in Hres. rewrite Hpath, Hreg, Hentry, Hlock in Hres.
    unfold check_again in Hres. rewrite Hentry in Hres.
    assert (p = Finished (Return entry) ∧ self' = (finish_load self path).2
            ∧ lock' = false) as (-> & -> & ->).
    { destruct Hpc as [Hpc|[Hpc|[Hpc|Hpc]]]; rewrite Hpc in Hres;
        rewrite ?Hfirst in Hres; try done; by injection Hres as <- <- <-. }
    right. split; [done|]. split; [done|].
    intros k c' Hk. simpl in Hk.
    apply list_lookup_insert_Some in Hk as [(<- & <- & _)|[Hik Hk]].
    + split; [done|]. simpl. rewrite Hentry. right; right; by right.
    + apply (Hcalls k c' Hk).
Qed.

Lemma run_invariant (self : DomainBlueprints.t) (path : string)
    (schedule : list nat) (l l' : loop) :
  DomainBlueprints._blueprints self !! path = None →
  loop_invariant self path l → run schedule l = Some l' →
  loop_invariant self path l'.
Proof.
  intros Hnone. revert l. induction schedule as [|i schedule IH];
    intros l Hinv Hrun; simpl in Hrun.
  - by injection Hrun as <-.
  - destruct (step i l) as [l1|] eqn:Hstep; [|done]. simpl in Hrun.
    apply (IH l1); [|done]. by apply (step_invariant self path i l).
Qed.

(** What holds of concurrent calls for one uncached path, under every
    schedule: the disk is read at most once, and exactly once as soon as
    a call has finished; when the load succeeds every finished call has
    the loaded blueprint; when it fails, a finished call has the failure
    or [None]. *)
Lemma concurrent_calls_one_read (self : DomainBlueprints.t) (path : string)
    (n : nat) (schedule : list nat) (l : loop) :
  DomainBlueprints._blueprints self !! path = None →
  run schedule (gather self path n) = Some l →
  (DomainBlueprints.disk_reads (registry l) = DomainBlueprints.disk_reads self
   ∨ DomainBlueprints.disk_reads (registry l)
     = DomainBlueprints.disk_reads self ++ [DomainBlueprints.file_of self path])
  ∧ ∀ c r, c ∈ calls l → at_pc c = Finished r →
      DomainBlueprints.disk_reads (registry l)
      = DomainBlueprints.disk_reads self ++ [DomainBlueprints.file_of self path]
      ∧ match (DomainBlueprints._load_blueprint self path).1 with
        | Return b => r = Return (Some b)
        | Raise e => r = Raise e ∨ r = Return None
        end.
Proof.
  intros Hnone Hrun.
  pose proof (run_invariant self path schedule _ l Hnone
                (gather_invariant self path n) Hrun) as Hinv.
  pose proof (load_blueprint_state self path) as Hst.
  assert (Hreads : DomainBlueprints.disk_reads (finish_load self path).2
                   = DomainBlueprints.disk_reads self
                     ++ [DomainBlueprints.file_of self path]).
  { unfold finish_load.
    destruct (DomainBlueprints._load_blueprint self path) as [[e|b] self'];
      simpl in *; by subst self'. }
  destruct Hinv as [[holder (Hreg & Hlock & Hcalls)]|(Hreg & Hlock & Hcalls)].
  - split; [left; by rewrite Hreg|].
    intros c r [i Hi]%list_elem_of_lookup Hfin.
    destruct (Hcalls i c Hi) as [_ Hpc]. rewrite Hfin in Hpc.
    destruct (decide (holder = Some i)); [done | by destruct Hpc].
  - split; [right; by rewrite Hreg|].
    intros c r [i Hi]%list_elem_of_lookup Hfin.
    split; [by rewrite Hreg|].
    destruct (Hcalls i c Hi) as [_ Hpc]. rewrite Hfin in Hpc.
    unfold finish_load in Hpc.
    destruct (DomainBlueprints._load_blueprint self path) as [[e|b] self'];
      simpl in *; rewrite lookup_insert_eq in Hpc; simpl in Hpc;
      destruct Hpc as [?|[?|[[= ->]|[= ->]]]]; try done; by (left + right).
Qed.

End loop_properties.

Section lone_call.
Context `{Collaborators}.
Import EventLoop.

(** A call that runs alone is the method [async_get_blueprint] of the
    registry: same outcome, same registry afterwards, lock released. *)
Lemma lone_call_is_method (self : DomainBlueprints.t) (path : string) :
  ∃ schedule l,
    run schedule (gather self path 1) = Some l
    ∧ outcomes l = [Finished (DomainBlueprints.async_get_blueprint self path).1]
    ∧ registry l = (DomainBlueprints.async_get_blueprint self path).2
    ∧ locked l = false.
Proof.
  unfold DomainBlueprints.async_get_blueprint.
  destruct (DomainBlueprints._blueprints self !! path) as [entry|] eqn:Hc.
  - exists [0]. eexists. split.
    + simpl. unfold step, resume. simpl. rewrite Hc. reflexivity.
    + done.
  - destruct (DomainBlueprints._load_blueprint self path) as [[e|b] self'] eqn:Hl;
      exists [0; 0]; eexists;
      (split;
       [ simpl; unfold step, resume, check_again; simpl; rewrite Hc; simpl;
         unfold finish_load; rewrite Hl; reflexivity
       | done ]).
Qed.

End lone_call.

(** ** The deCONZ device base *)

Section deconz_properties.
Import DeconzBase.

Lemma partition_Some (sep : ascii) (s before after : string) :
  partition sep s = Some (before, after) →
  s = before +:+ String sep after ∧ count sep before = 0.
Proof.
  revert before. induction s as [|a s IH]; intros before; simpl; [done|].
  destruct (decide (a = sep)) as [->|Hne].
  - by intros [= <- <-].
  - destruct (partition sep s) as [[b' a']|]; [|done].
    intros [= <- <-]. destruct (IH b' eq_refl) as [-> Hcount].
    split; [done|]. simpl. by rewrite decide_False.
Qed.

Lemma partition_None (sep : ascii) (s : string) :
  partition sep s = None → count sep s = 0.
Proof.
  induction s as [|a s IH]; simpl; [done|].
  destruct (decide (a = sep)); [done|].
  destruct (partition sep s) as [[b' a']|]; [done|]. intros _. by apply IH.
Qed.

(** C10. [serial] is [None] exactly when the unique id is [None] or does
    not hold exactly seven [:]; otherwise it is the part of the unique id
    before its first [-] (the whole id when there is none).  And
    [device_info] is [None] exactly when [serial] is. *)
Theorem serial_and_device_info (CONNECTION_ZIGBEE DECONZ_DOMAIN : string)
    (self : t) :
  (serial self = None
   ↔ uniqueid (_device self) = None
     ∨ ∃ u, uniqueid (_device self) = Some u ∧ count ":" u ≠ 7)
  ∧ (∀ u, uniqueid (_device self) = Some u → count ":" u = 7 →
       ∃ s, serial self = Some s
            ∧ count "-" s = 0
            ∧ (u = s ∨ ∃ rest, u = s +:+ String "-" rest))
  ∧ (device_info CONNECTION_ZIGBEE DECONZ_DOMAIN self = None
     ↔ serial self = None).
Proof.
  assert (Hsome : ∀ u, uniqueid (_device self) = Some u → count ":" u = 7 →
            ∃ s, serial self = Some s ∧ count "-" s = 0
                 ∧ (u = s ∨ ∃ rest, u = s +:+ String "-" rest)).
  { intros u Hu H7. unfold serial, split1. rewrite Hu.
    rewrite decide_False by (intros Hn; by apply Hn).
    destruct (partition "-" u) as [[before after]|] eqn:Hp.
    - apply partition_Some in Hp as [-> Hc]. exists before.
      repeat split; [done|]. right. by exists after.
    - apply partition_None in Hp. exists u. repeat split; [done|by left]. }
  split; [|split; [exact Hsome|]].
  - split.
    + destruct (uniqueid (_device self)) as [u|] eqn:Hu; [|by left].
      destruct (decide (count ":" u = 7)) as [H7|H7].
      * destruct (Hsome u eq_refl H7) as (s & -> & _). done.
      * intros _. right. by exists u.
    + unfold serial. intros [->|(u & -> & Hn)]; [done|].
      by rewrite decide_True.
  - unfold device_info. by destruct (serial self).
Qed.

End deconz_properties.

(** ** The example scenario *)

Section scenario.
Import Scenario.
#[local] Existing Instance collaborators.

(** Section 8 of the specification, first example: the placeholders of
    the test blueprint are [{"target"}]. *)
Example scenario_placeholders :
  Blueprint.__init__ declared_target None None = Return (blueprint_of declared_target)
  ∧ Blueprint.placeholders (blueprint_of declared_target) = {["target"]}.
Proof. split; by vm_compute. Qed.

(** Instantiating with [target: light.kitchen] gives
    [action.service == "light.kitchen"]. *)
Example scenario_substitute :
  BlueprintInputs.async_substitute
    {| BlueprintInputs.blueprint := blueprint_of declared_target;
       BlueprintInputs.config_with_inputs :=
         use_blueprint [("target", Str "light.kitchen")] |}
  = Return [("alias", Str "Kitchen");
            ("action", Mapping [("service", Str "light.kitchen")])].
Proof. by vm_compute. Qed.

(** Omitting [target] raises [MissingPlaceholder]. *)
Example scenario_missing_target :
  BlueprintInputs.validate
    {| BlueprintInputs.blueprint := blueprint_of declared_target;
       BlueprintInputs.config_with_inputs := use_blueprint [] |}
  = Raise (MissingPlaceholder "automation" "Test" {["target"]}).
Proof. by vm_compute. Qed.

(** Second example: the undeclared [other] fails the construction. *)
Example scenario_undeclared_other :
  Blueprint.__init__ undeclared_other None None
  = Raise (InvalidBlueprint (Some "automation") (Some "Test") undeclared_other
             (Message "Missing input definition for other")).
Proof. by vm_compute. Qed.

(** The running version 0.118.0 is below 0.119.0 and not below 0.117.2. *)
Example scenario_min_version :
  Blueprint.validate (blueprint_of (needs_version "0.119.0"))
  = Return (Some ["Requires at least Home Assistant 0.119.0"])
  ∧ Blueprint.validate (blueprint_of (needs_version "0.117.2")) = Return None.
Proof. split; by vm_compute. Qed.

Lemma Blueprint_placeholders_declared_witness :
  ∃ b, Blueprint.__init__ declared_target (Some "test.yaml") None = Return b
       ∧ Blueprint.data b = declared_target
       ∧ Blueprint.placeholders b = placeholder.extract_placeholders declared_target
       ∧ Blueprint.placeholders b ⊆ list_to_set ["target"].
Proof.
  apply (Blueprint_placeholders_declared declared_target declared_target
           (list_to_set ["target"]) (Some "test.yaml")).
  - reflexivity.
  - reflexivity.
  - intros x Hx. vm_compute in Hx. vm_compute. exact Hx.
Defined.

Lemma Blueprint_undeclared_placeholder_witness :
  ∃ e,
    Blueprint.__init__ undeclared_other (Some "test.yaml") (Some "automation")
    = Raise e
    ∧ e = InvalidBlueprint (Some "automation") (Some "test.yaml") undeclared_other
            (Message "Missing input definition for other")
    ∧ names_input e "other" = true.
Proof.
  destruct (Blueprint_undeclared_placeholder undeclared_other undeclared_other
              (list_to_set ["target"]) (Some "test.yaml") (Some "automation"))
    as (dom & nm & e & Hdom & Hnm & He & _ & Hmissing & _).
  - reflexivity.
  - reflexivity.
  - intros Hx. vm_compute in Hx. discriminate Hx.
  - injection Hdom as <-. injection Hnm as <-.
    destruct (Hmissing eq_refl) as [Hmsg Hnames].
    exists e. split; [exact He|]. split; [exact Hmsg|].
    apply Hnames. apply (bool_decide_unpack _). by vm_compute.
Defined.

(** On a domain mismatch the exception is the one of the mismatch: it
    does not name the missing input [other]. *)
Lemma undeclared_placeholder_not_named :
  ¬ undeclared_placeholder_named undeclared_other (Some "test.yaml") (Some "script").
Proof.
  intros Hclaim.
  destruct (Hclaim undeclared_other (list_to_set ["target"]) "other")
    as (e & He & _ & Hnames).
  - reflexivity.
  - reflexivity.
  - apply (bool_decide_unpack _). by vm_compute.
  - vm_compute in He. injection He as <-. vm_compute in Hnames. discriminate Hnames.
Qed.

Lemma BlueprintInputs_validate_missing_witness :
  BlueprintInputs.validate
    {| BlueprintInputs.blueprint := blueprint_of dimmed_target;
       BlueprintInputs.config_with_inputs :=
         use_blueprint [("target", Str "light.kitchen")] |}
  = Raise (MissingPlaceholder "automation" "Test" {["brightness"]}).
Proof.
  destruct (BlueprintInputs_validate_missing dimmed_target (Some "test.yaml")
              (Some "automation") (blueprint_of dimmed_target)
              (use_blueprint [("target", Str "light.kitchen")])
              [ (CONF_PATH, Str "test.yaml");
                (CONF_INPUT, Mapping [("target", Str "light.kitchen")]) ]
              [("target", Str "light.kitchen")])
    as (top & meta & nm & Hdata & Hm & _ & Hn & _ & Hraise & _).
  - reflexivity.
  - reflexivity.
  - reflexivity.
  - injection Hdata as <-. injection Hm as <-. injection Hn as <-.
    apply Hraise. intros Hx. vm_compute in Hx. discriminate Hx.
Defined.

Lemma Blueprint_validate_min_version_witness :
  Blueprint.validate (blueprint_of (needs_version "0.119.0"))
  = Return (Some ["Requires at least Home Assistant 0.119.0"]).
Proof.
  destruct (Blueprint_validate_min_version (needs_version "0.119.0") None None
              (blueprint_of (needs_version "0.119.0")))
    as (top & meta & Hdata & Hm & Hv).
  - reflexivity.
  - injection Hdata as <-. injection Hm as <-. exact (proj1 Hv).
Defined.




(** What [async_add_blueprint] does there. *)
Example add_below_a_file :
  DomainBlueprints.async_add_blueprint (disk_with undeclared_other)
    (blueprint_of declared_target) "test.yaml/x"
  = (Raise (FileExistsError blueprint_file), disk_with undeclared_other).
Proof. by vm_compute. Qed.

(** A path through a directory that is not there yet does not exist,
    although the file it names once the directory is made does: the
    blueprint file on disk gets a new text. *)
Example add_through_a_new_directory :
  path_exists (DomainBlueprints.files (disk_with undeclared_other))
    (DomainBlueprints.dirs (disk_with undeclared_other))
    (DomainBlueprints.file_of (disk_with undeclared_other) "sub/../test.yaml")
  = false
  ∧ (DomainBlueprints.async_add_blueprint (disk_with undeclared_other)
       (blueprint_of declared_target) "sub/../test.yaml").1 = Return ()
  ∧ DomainBlueprints.files
      (DomainBlueprints.async_add_blueprint (disk_with undeclared_other)
         (blueprint_of declared_target) "sub/../test.yaml").2
    = {[ blueprint_file := dump declared_target ]}.
Proof. repeat split; by vm_compute. Qed.

Lemma failed_load_is_not_retried_witness :
  ∃ failed,
    DomainBlueprints.async_get_blueprint empty_disk "test.yaml"
    = (Raise (FailedToLoad "automation" "test.yaml"
                (FileNotFoundError blueprint_file)), failed)
    ∧ DomainBlueprints.cached_failed failed "test.yaml"
    ∧ DomainBlueprints.disk_reads failed
      = DomainBlueprints.disk_reads empty_disk
        ++ [DomainBlueprints.file_of empty_disk "test.yaml"]
    ∧ DomainBlueprints.async_get_blueprint failed "test.yaml" = (Return None, failed)
    ∧ ∀ ops, forallb (λ op, negb (DomainBlueprints.is_reset op)) ops = true →
        ∃ entry,
          DomainBlueprints.async_get_blueprint
            (DomainBlueprints.run ops failed) "test.yaml"
          = (Return entry, DomainBlueprints.run ops failed).
Proof.
  apply (failed_load_is_not_retried empty_disk
           (DomainBlueprints.log_read empty_disk blueprint_file) "test.yaml").
  - reflexivity.
  - reflexivity.
Defined.


(** C9, on a load that fails.  Two callers ask for [test.yaml], which is
    not on the disk, and run as the event loop runs them: the first takes
    the lock and waits for the load, the second waits for the lock, the
    load fails, the second takes the lock.  The disk has been read once;
    the first caller has the failure, the second has [None]: the two
    results differ. *)
Theorem concurrent_failure_unequal_results :
  ∃ l,
    EventLoop.run [0; 1; 0; 1] (EventLoop.gather empty_disk "test.yaml" 2) = Some l
    ∧ DomainBlueprints.disk_reads (EventLoop.registry l) = [blueprint_file]
    ∧ EventLoop.outcomes l
      = [EventLoop.Finished
           (Raise (FailedToLoad "automation" "test.yaml"
                     (FileNotFoundError blueprint_file)));
         EventLoop.Finished (Return None)]
    ∧ ¬ equal_results l.
Proof.
  eexists. split; [by vm_compute|]. split; [done|]. split; [done|].
  intros [r Hr].
  pose proof (Hr _ (list_elem_of_here _ _)) as H0.
  pose proof (Hr _ (list_elem_of_further _ _ _ (list_elem_of_here _ _))) as H1.
  simpl in H0, H1. congruence.
Qed.

End scenario.

(** * Further properties of the blueprint models *)

Section more_blueprint_properties.
Context `{Collaborators}.
Import placeholder.

(** X1. Whatever the constructor is given, the only exception it raises
    is [InvalidBlueprint]: the lookups into the validated document cannot
    fail. *)
Theorem Blueprint_init_raises_InvalidBlueprint (D : document)
    (path expected_domain : option string) (e : exception) :
  Blueprint.__init__ D path expected_domain = Raise e →
  is_InvalidBlueprint e = true.
Proof.
  unfold Blueprint.__init__.
  destruct (BLUEPRINT_SCHEMA D) as [err|D'] eqn:HS; [by intros [= <-]|].
  pose proof (BLUEPRINT_SCHEMA_valid _ _ HS) as Hv.
  destruct (valid_domain_of _ Hv) as [dom ->].
  destruct (valid_path_or_name path _ Hv) as [nm ->].
  destruct (valid_declared_inputs _ Hv) as [I ->].
  unfold_result.
  destruct (Blueprint.domain_mismatch expected_domain dom); [by intros [= <-]|].
  destruct (decide (extract_placeholders D' ∖ I = ∅)); [done | by intros [= <-]].
Qed.

(** X2. A blueprint constructed with an expected domain has that domain. *)
Theorem Blueprint_init_expected_domain (D : document) (path : option string)
    (expected_domain : string) (b : Blueprint.t) :
  Blueprint.__init__ D path (Some expected_domain) = Return b →
  Blueprint.domain b = expected_domain
  ∧ Blueprint.domain_of (Blueprint.data b) = Return expected_domain.
Proof.
  intros (I & _ & _ & _ & Hdom & Hmis & _)%Blueprint_init_inv.
  simpl in Hmis. apply bool_decide_eq_false in Hmis.
  destruct (decide (Blueprint.domain b = expected_domain)) as [Heq|]; [|done].
  by rewrite <- Heq at 2.
Qed.

(** X3. When the document's domain is not the expected one, the
    constructor raises [InvalidBlueprint] for the mismatch, whether or not
    the placeholders are declared.  The exception carries the expected
    domain and, for the blueprint, the path when a non-empty one was given
    and the blueprint's name otherwise. *)
Theorem Blueprint_init_domain_mismatch (D D' : document) (dom expected_domain : string)
    (path : option string) :
  BLUEPRINT_SCHEMA D = inr D' →
  Blueprint.domain_of D' = Return dom →
  dom ≠ expected_domain →
  ∃ nm,
    Blueprint.__init__ D path (Some expected_domain)
    = Raise (InvalidBlueprint (Some expected_domain) (Some nm) D'
               (Message ("Found incorrect blueprint type " +:+ dom
                         +:+ ", expected " +:+ expected_domain)))
    ∧ match path with
      | Some p => if decide (p = "") then Blueprint.name_of D' = Return nm else nm = p
      | None => Blueprint.name_of D' = Return nm
      end.
Proof.
  intros HS Hdom Hne.
  destruct (valid_path_or_name path D' (BLUEPRINT_SCHEMA_valid _ _ HS)) as [nm Hnm].
  exists nm. split.
  - unfold Blueprint.__init__. rewrite HS, Hdom. unfold_result.
    cbn [Blueprint.domain_mismatch]. rewrite bool_decide_eq_true_2 by done.
    by rewrite Hnm.
  - unfold Blueprint.path_or_name in Hnm. destruct path as [p|]; [|done].
    destruct (decide (p = "")); [done | by injection Hnm].
Qed.

(** X4. [update_metadata] on a constructed blueprint never raises.
    Without a source URL the blueprint is unchanged.  With one, the
    metadata holds it under [source_url]; the name, the domain, the
    placeholders, the declared inputs, the outcome of [validate] and every
    top-level section other than the metadata are as before, and the
    document still has the shape the schema accepts. *)
Theorem Blueprint_update_metadata_source_url (D : document)
    (path expected_domain : option string) (b : Blueprint.t) (url : string) :
  Blueprint.__init__ D path expected_domain = Return b →
  Blueprint.update_metadata b None = Return b
  ∧ ∃ b',
      Blueprint.update_metadata b (Some url) = Return b'
      ∧ (Blueprint.metadata b' ≫= λ m, getitem m CONF_SOURCE_URL) = Return (Str url)
      ∧ Blueprint.name b' = Blueprint.name b
      ∧ Blueprint.domain b' = Blueprint.domain b
      ∧ Blueprint.domain_of (Blueprint.data b') = Blueprint.domain_of (Blueprint.data b)
      ∧ Blueprint.placeholders b' = Blueprint.placeholders b
      ∧ Blueprint.declared_inputs (Blueprint.data b')
        = Blueprint.declared_inputs (Blueprint.data b)
      ∧ Blueprint.validate b' = Blueprint.validate b
      ∧ valid_blueprint_document (Blueprint.data b') = true
      ∧ ∀ k, k ≠ CONF_BLUEPRINT →
             getitem (Blueprint.data b') k = getitem (Blueprint.data b) k.
Proof.
  intros (I & _ & Hv & _)%Blueprint_init_inv. split; [done|].
  unfold Blueprint.update_metadata.
  destruct (Blueprint.data b) as [| | | | | |top] eqn:Hdata; try done.
  unfold valid_blueprint_document in Hv.
  destruct (dict_get CONF_BLUEPRINT top) as [[| | | | | |meta]|] eqn:Hmeta; try done.
  eexists. split; [done|].
  unfold Blueprint.metadata, Blueprint.name, Blueprint.name_of, Blueprint.domain_of,
    Blueprint.declared_inputs, Blueprint.validate, Blueprint.metadata,
    valid_blueprint_document.
  cbn [Blueprint.data Blueprint.domain Blueprint.placeholders].
  rewrite Hdata. unfold getitem, get_default. unfold_result.
  rewrite !dict_get_set, Hmeta. rewrite decide_True by done.
  rewrite !dict_get_set. rewrite decide_True by done.
  rewrite !decide_False by done.
  repeat split; try done.
  intros k Hk. rewrite dict_get_set. by rewrite decide_False.
Qed.

End more_blueprint_properties.

(** ** Substitution without validation *)

Section more_engine_properties.
Import placeholder.

(** The only failure of [substitute] is a placeholder of the document that
    has no value. *)
Lemma substitute_Raise (d : document) (substitutions : dict) (e : exception) :
  substitute d substitutions = Raise e →
  ∃ x, e = UndefinedPlaceholder x
       ∧ x ∈ extract_placeholders d
       ∧ dict_get x substitutions = None.
Proof.
  revert e.
  induction d as [| b | n | s | name | items IH | entries IH] using document_rect';
    intros e; try done.
  - simpl. destruct (dict_get name substitutions) eqn:Hg; [done|].
    intros [= <-]. exists name. repeat split; [|done]. by apply elem_of_singleton.
  - rewrite substitute_List. unfold_result.
    destruct (substitute_items substitutions items) as [e'|l] eqn:Hl; [|done].
    intros [= <-]. cbn [extract_placeholders].
    induction items as [|v items IHitems]; [done|].
    apply Forall_cons in IH as [Hv Hitems]. simpl in Hl. unfold_result.
    destruct (substitute v substitutions) as [ev|v'] eqn:Hsv.
    + injection Hl as <-. destruct (Hv _ eq_refl) as (x & -> & Hx & Hg).
      exists x. repeat split; [|done]. simpl. apply elem_of_union. by left.
    + destruct (substitute_items substitutions items) as [el|l'] eqn:Hl'; [|done].
      injection Hl as <-. destruct (IHitems Hitems eq_refl) as (x & -> & Hx & Hg).
      exists x. repeat split; [|done]. simpl. apply elem_of_union. by right.
  - rewrite substitute_Mapping. unfold_result.
    destruct (substitute_entries substitutions entries) as [e'|l] eqn:Hl; [|done].
    intros [= <-]. cbn [extract_placeholders].
    induction entries as [|[k v] entries IHentries]; [done|].
    apply Forall_cons in IH as [Hv Hentries]. simpl in Hl, Hv. unfold_result.
    destruct (substitute v substitutions) as [ev|v'] eqn:Hsv.
    + injection Hl as <-. destruct (Hv _ eq_refl) as (x & -> & Hx & Hg).
      exists x. repeat split; [|done]. simpl. apply elem_of_union. by left.
    + destruct (substitute_entries substitutions entries) as [el|l'] eqn:Hl'; [|done].
      injection Hl as <-. destruct (IHentries Hentries eq_refl) as (x & -> & Hx & Hg).
      exists x. repeat split; [|done]. simpl. apply elem_of_union. by right.
Qed.

(** [substitute] returns only when every placeholder has a value. *)
Lemma substitute_Return_covered (d d' : document) (substitutions : dict) :
  substitute d substitutions = Return d' →
  extract_placeholders d ⊆ list_to_set (dict_keys substitutions).
Proof.
  revert d'.
  induction d as [| b | n | s | name | items IH | entries IH] using document_rect';
    intros d'; try (intros _ x Hx; by apply not_elem_of_empty in Hx).
  - simpl. destruct (dict_get name substitutions) eqn:Hg; [|done].
    intros _ x ->%elem_of_singleton. apply elem_of_list_to_set.
    by apply dict_get_Some_keys in Hg.
  - rewrite substitute_List. unfold_result.
    destruct (substitute_items substitutions items) as [e'|l] eqn:Hl; [done|].
    intros _. clear d'. revert l Hl. cbn [extract_placeholders].
    induction items as [|v items IHitems]; intros l Hl.
    { intros x Hx. simpl in Hx. by apply not_elem_of_empty in Hx. }
    apply Forall_cons in IH as [Hv Hitems]. simpl in Hl. unfold_result.
    destruct (substitute v substitutions) as [ev|v'] eqn:Hsv; [done|].
    destruct (substitute_items substitutions items) as [el|l'] eqn:Hl'; [done|].
    simpl. intros x [Hx|Hx]%elem_of_union.
    + by apply (Hv v').
    + by apply (IHitems Hitems l').
  - rewrite substitute_Mapping. unfold_result.
    destruct (substitute_entries substitutions entries) as [e'|l] eqn:Hl; [done|].
    intros _. clear d'. revert l Hl. cbn [extract_placeholders].
    induction entries as [|[k v] entries IHentries]; intros l Hl.
    { intros x Hx. simpl in Hx. by apply not_elem_of_empty in Hx. }
    apply Forall_cons in IH as [Hv Hentries]. simpl in Hl, Hv. unfold_result.
    destruct (substitute v substitutions) as [ev|v'] eqn:Hsv; [done|].
    destruct (substitute_entries substitutions entries) as [el|l'] eqn:Hl'; [done|].
    simpl. intros x [Hx|Hx]%elem_of_union.
    + by apply (Hv v').
    + by apply (IHentries Hentries l').
Qed.

End more_engine_properties.

(** ** More on blueprint inputs *)

Section more_inputs_properties.
Context `{Collaborators}.
Import placeholder.

(** X5. Inputs that the blueprint does not use are no error: when
    [validate] accepts a set of inputs, it accepts every larger one. *)
Theorem BlueprintInputs_validate_more_inputs (b : Blueprint.t)
    (config config' ins ins' : dict) :
  BlueprintInputs.inputs
    {| BlueprintInputs.blueprint := b; BlueprintInputs.config_with_inputs := config |}
  = Return (Mapping ins) →
  BlueprintInputs.inputs
    {| BlueprintInputs.blueprint := b; BlueprintInputs.config_with_inputs := config' |}
  = Return (Mapping ins') →
  dict_keys ins ⊆ dict_keys ins' →
  BlueprintInputs.validate
    {| BlueprintInputs.blueprint := b; BlueprintInputs.config_with_inputs := config |}
  = Return () →
  BlueprintInputs.validate
    {| BlueprintInputs.blueprint := b; BlueprintInputs.config_with_inputs := config' |}
  = Return ().
Proof.
  intros Hins Hins' Hsub. unfold BlueprintInputs.validate.
  rewrite Hins, Hins'. unfold_result. cbn [set_of_keys BlueprintInputs.blueprint].
  destruct (decide (Blueprint.placeholders b ∖ list_to_set (dict_keys ins) = ∅))
    as [He|]; [|by destruct (Blueprint.name b)].
  intros _. rewrite decide_True; [done|].
  apply elem_of_equiv_empty_L. intros x [Hx Hn]%elem_of_difference.
  apply (not_elem_of_empty (C:=gset string) x). rewrite <- He.
  apply elem_of_difference. split; [done|].
  intros Hin%elem_of_list_to_set. apply Hn, elem_of_list_to_set, Hsub, Hin.
Qed.

(** X6. The constructor's check makes the declared inputs enough: for a
    constructed blueprint, inputs that give a value to every declared
    input pass [validate]. *)
Theorem BlueprintInputs_validate_declared (D : document)
    (path expected_domain : option string) (b : Blueprint.t)
    (I : gset string) (config ins : dict) :
  Blueprint.__init__ D path expected_domain = Return b →
  Blueprint.declared_inputs (Blueprint.data b) = Return I →
  BlueprintInputs.inputs
    {| BlueprintInputs.blueprint := b; BlueprintInputs.config_with_inputs := config |}
  = Return (Mapping ins) →
  I ⊆ list_to_set (dict_keys ins) →
  BlueprintInputs.validate
    {| BlueprintInputs.blueprint := b; BlueprintInputs.config_with_inputs := config |}
  = Return ().
Proof.
  intros (I' & _ & _ & _ & _ & _ & HI' & Hsub)%Blueprint_init_inv HI Hins Hcov.
  rewrite HI in HI'. injection HI' as <-.
  unfold BlueprintInputs.validate. rewrite Hins. unfold_result.
  cbn [set_of_keys BlueprintInputs.blueprint].
  rewrite decide_True; [done|].
  apply elem_of_equiv_empty_L. intros x [Hx Hn]%elem_of_difference.
  apply Hn, Hcov, Hsub, Hx.
Qed.

(** X7. [async_substitute] does not validate.  On a constructed blueprint
    with inputs that [validate] rejects, it raises [UndefinedPlaceholder]
    for one of the missing placeholders and returns no configuration. *)
Theorem BlueprintInputs_substitute_unvalidated (D : document)
    (path expected_domain : option string) (b : Blueprint.t)
    (config ins : dict) :
  Blueprint.__init__ D path expected_domain = Return b →
  BlueprintInputs.inputs
    {| BlueprintInputs.blueprint := b; BlueprintInputs.config_with_inputs := config |}
  = Return (Mapping ins) →
  Blueprint.placeholders b ∖ list_to_set (dict_keys ins) ≠ ∅ →
  ∃ x,
    x ∈ Blueprint.placeholders b ∖ list_to_set (dict_keys ins)
    ∧ BlueprintInputs.async_substitute
        {| BlueprintInputs.blueprint := b;
           BlueprintInputs.config_with_inputs := config |}
      = Raise (UndefinedPlaceholder x).
Proof.
  intros (I & _ & _ & Hpl & _)%Blueprint_init_inv Hins Hne.
  unfold BlueprintInputs.async_substitute. rewrite Hins. unfold_result.
  cbn [BlueprintInputs.as_dict BlueprintInputs.blueprint
       BlueprintInputs.config_with_inputs].
  destruct (substitute (Blueprint.data b) ins) as [e|d'] eqn:Hs.
  - destruct (substitute_Raise _ _ _ Hs) as (x & -> & Hx & Hg).
    exists x. split; [|done]. apply elem_of_difference. rewrite Hpl.
    split; [done|]. intros Hin%elem_of_list_to_set.
    by apply dict_get_None_keys in Hg.
  - destruct Hne. apply elem_of_equiv_empty_L.
    intros x [Hx Hn]%elem_of_difference. rewrite Hpl in Hx.
    by apply Hn, (substitute_Return_covered _ _ _ Hs).
Qed.

End more_inputs_properties.

(** ** More on the registry *)

Section more_registry_properties.
Context `{Collaborators}.
Import DomainBlueprints.

Lemma with_extension_idemp (blueprint_path : string) :
  with_extension (with_extension blueprint_path) = with_extension blueprint_path.
Proof.
  unfold with_extension at 1. by rewrite with_extension_endswith.
Qed.

(** What [_load_blueprint] returns depends on the files and the domain
    only. *)
Lemma load_blueprint_result (self self' : t) (blueprint_path : string) :
  files self = files self' → domain self = domain self' →
  (_load_blueprint self blueprint_path).1 = (_load_blueprint self' blueprint_path).1.
Proof.
  intros Hf Hd. unfold _load_blueprint, load_yaml, file_of, log_read. simpl.
  rewrite Hf, Hd.
  destruct (files self' !! _) as [text|]; simpl; [|done].
  destruct (yaml_parse text) as [e|d]; simpl; [|done].
  by destruct (is_load_error e).
Qed.

(** A blueprint that [_load_blueprint] returns was constructed from the
    document in the file, for the registry's domain. *)
Lemma load_blueprint_Return (self self' : t) (blueprint_path : string)
    (b : Blueprint.t) :
  _load_blueprint self blueprint_path = (Return b, self') →
  ∃ text D,
    files self !! file_of self blueprint_path = Some text
    ∧ yaml_parse text = Return D
    ∧ Blueprint.__init__ D (Some blueprint_path) (Some (domain self)) = Return b.
Proof.
  unfold _load_blueprint, load_yaml. simpl.
  destruct (files self !! file_of self blueprint_path) as [text|]; simpl; [|done].
  destruct (yaml_parse text) as [e|D] eqn:Hp; simpl.
  - by destruct (is_load_error e).
  - intros [= Hb _]. by exists text, D.
Qed.

(** With a reader that fails only with errors that [_load_blueprint]
    wraps, every failure of [_load_blueprint] is a blueprint exception. *)
Lemma load_blueprint_Raise (self self' : t) (blueprint_path : string)
    (e : exception) :
  (∀ text err, yaml_parse text = Raise err → is_load_error err = true) →
  _load_blueprint self blueprint_path = (Raise e, self') →
  (∃ cause, e = FailedToLoad (domain self) blueprint_path cause)
  ∨ is_InvalidBlueprint e = true.
Proof.
  intros Hreader. unfold _load_blueprint, load_yaml. simpl.
  destruct (files self !! file_of self blueprint_path) as [text|]; simpl.
  - destruct (yaml_parse text) as [err|D] eqn:Hp; simpl.
    + rewrite (Hreader _ _ Hp). intros [= <- _]. left. by eexists.
    + intros [= Hb _]. right.
      by apply (Blueprint_init_raises_InvalidBlueprint D (Some blueprint_path)
                  (Some (domain self))).
  - intros [= <- _]. left. by eexists.
Qed.

(** X8. A successful load is cached.  For an uncached path whose file
    loads, [async_get_blueprint] reads the disk once, returns the
    blueprint and caches it; the blueprint has the registry's domain; the
    next call returns the same blueprint and leaves the registry, with its
    log of reads, as it is. *)
Theorem get_blueprint_loads_once (self self' : t) (blueprint_path : string)
    (b : Blueprint.t) :
  _blueprints self !! blueprint_path = None →
  _load_blueprint self blueprint_path = (Return b, self') →
  ∃ loaded,
    async_get_blueprint self blueprint_path = (Return (Some b), loaded)
    ∧ disk_reads loaded = disk_reads self ++ [file_of self blueprint_path]
    ∧ files loaded = files self
    ∧ _blueprints loaded = <[blueprint_path := Some b]> (_blueprints self)
    ∧ Blueprint.domain b = domain self
    ∧ async_get_blueprint loaded blueprint_path = (Return (Some b), loaded).
Proof.
  intros Hnone Hload.
  pose proof (load_blueprint_state self blueprint_path) as Hst.
  rewrite Hload in Hst. simpl in Hst. subst self'.
  destruct (load_blueprint_Return _ _ _ _ Hload) as (text & D & _ & _ & Hinit).
  apply Blueprint_init_expected_domain in Hinit as [Hdom _].
  eexists. split.
  { unfold async_get_blueprint. by rewrite Hnone, Hload. }
  repeat split; try done.
  apply get_blueprint_cached. simpl. apply lookup_insert_eq.
Qed.


(** X10. With a YAML reader that fails only with [HomeAssistantError]s
    (or [FileNotFoundError]), [async_get_blueprint] raises nothing but
    [FailedToLoad] for the path and [InvalidBlueprint]. *)
Theorem get_blueprint_raises (self self' : t) (blueprint_path : string)
    (e : exception) :
  (∀ text err, yaml_parse text = Raise err → is_load_error err = true) →
  async_get_blueprint self blueprint_path = (Raise e, self') →
  (∃ cause, e = FailedToLoad (domain self) blueprint_path cause)
  ∨ is_InvalidBlueprint e = true.
Proof.
  intros Hreader. unfold async_get_blueprint.
  destruct (_blueprints self !! blueprint_path); [done|].
  destruct (_load_blueprint self blueprint_path) as [[e'|b] s] eqn:Hl; [|done].
  intros [= <- _]. by apply (load_blueprint_Raise self s).
Qed.

(** X11. [async_reset_cache] forgets every path: the next
    [async_get_blueprint] for any path, cached before or not, reads the
    file of the path once and caches nothing but that path. *)
Theorem reset_cache_reloads (self : t) (blueprint_path : string) :
  disk_reads (async_get_blueprint (async_reset_cache self) blueprint_path).2
  = disk_reads self ++ [file_of self blueprint_path]
  ∧ files (async_get_blueprint (async_reset_cache self) blueprint_path).2
    = files self
  ∧ (async_get_blueprint (async_reset_cache self) blueprint_path).1
    = match (_load_blueprint self blueprint_path).1 with
      | Raise e => Raise e
      | Return b => Return (Some b)
      end
  ∧ dom (_blueprints (async_get_blueprint (async_reset_cache self) blueprint_path).2)
    = {[ blueprint_path ]}.
Proof.
  unfold async_get_blueprint. cbn [async_reset_cache set_blueprints _blueprints].
  rewrite lookup_empty.
  pose proof (load_blueprint_state (async_reset_cache self) blueprint_path) as Hst.
  pose proof (load_blueprint_result (async_reset_cache self) self blueprint_path
                eq_refl eq_refl) as Hres.
  destruct (_load_blueprint (async_reset_cache self) blueprint_path)
    as [[e|b] s] eqn:Hl; simpl in Hst, Hres; subst s; rewrite <- Hres; simpl;
    rewrite dom_insert_L, dom_empty_L; repeat split; try done;
    apply (right_id_L ∅ (∪)).
Qed.

(** X12. A blueprint that was added is served from the cache.  When the
    path with extension does not exist, its parent directories can be made
    and it opens for writing, [async_add_blueprint] succeeds, the file
    that the path names holds the blueprint's YAML text, and
    [async_get_blueprint] for the path returns the added blueprint without
    reading the disk. *)
Theorem add_then_get_blueprint (self : t) (blueprint : Blueprint.t)
    (blueprint_path fname : string) (made : gset string) :
  path_exists (files self) (dirs self)
    (file_of self (with_extension blueprint_path)) = false →
  parent_mkdir (files self) (dirs self)
    (file_of self (with_extension blueprint_path)) = (None, made) →
  write_target (files self) made
    (file_of self (with_extension blueprint_path)) = inr fname →
  ∃ added,
    async_add_blueprint self blueprint blueprint_path = (Return (), added)
    ∧ files added !! fname = Some (Blueprint.yaml blueprint)
    ∧ async_get_blueprint added (with_extension blueprint_path)
      = (Return (Some blueprint), added)
    ∧ disk_reads added = disk_reads self.
Proof.
  intros Hex Hmk Hw. eexists. split.
  { unfold async_add_blueprint, _create_file. rewrite Hex, Hmk. simpl.
    by rewrite Hw. }
  split; [apply lookup_insert_eq|]. split; [|done].
  apply get_blueprint_cached. apply lookup_insert_eq.
Qed.

(** X13. Adding is not repeatable: after a successful
    [async_add_blueprint], adding any blueprint under the same path, given
    with or without the extension, raises [FileAlreadyExists] and changes
    nothing. *)
Theorem add_blueprint_twice (self : t) (blueprint blueprint' : Blueprint.t)
    (blueprint_path fname : string) (made : gset string) :
  path_exists (files self) (dirs self)
    (file_of self (with_extension blueprint_path)) = false →
  parent_mkdir (files self) (dirs self)
    (file_of self (with_extension blueprint_path)) = (None, made) →
  write_target (files self) made
    (file_of self (with_extension blueprint_path)) = inr fname →
  ∃ added,
    async_add_blueprint self blueprint blueprint_path = (Return (), added)
    ∧ async_add_blueprint added blueprint' blueprint_path
      = (Raise (FileAlreadyExists (domain self) (with_extension blueprint_path)),
         added)
    ∧ async_add_blueprint added blueprint' (with_extension blueprint_path)
      = (Raise (FileAlreadyExists (domain self) (with_extension blueprint_path)),
         added).
Proof.
  intros Hex Hmk Hw. eexists. split.
  { unfold async_add_blueprint, _create_file. rewrite Hex, Hmk. simpl.
    by rewrite Hw. }
  unfold async_add_blueprint, _create_file. rewrite with_extension_idemp.
  cbn [files dirs set_files set_dirs set_blueprints file_of domain].
  by rewrite (path_exists_written _ _ _ _ _ Hw).
Qed.

(** X14. Removing what was added restores the disk but not the cache:
    after a successful [async_add_blueprint] that wrote the file of the
    path's own name, [async_remove_blueprint] of the path with extension
    succeeds, the files are the files from before the addition, and the
    cache holds [None] for the path. *)
Theorem add_then_remove_blueprint (self : t) (blueprint : Blueprint.t)
    (blueprint_path : string) (made : gset string) :
  files self !! file_of self (with_extension blueprint_path) = None →
  path_exists (files self) (dirs self)
    (file_of self (with_extension blueprint_path)) = false →
  parent_mkdir (files self) (dirs self)
    (file_of self (with_extension blueprint_path)) = (None, made) →
  write_target (files self) made
    (file_of self (with_extension blueprint_path))
  = inr (file_of self (with_extension blueprint_path)) →
  ∃ added removed,
    async_add_blueprint self blueprint blueprint_path = (Return (), added)
    ∧ async_remove_blueprint added (with_extension blueprint_path)
      = (Return (), removed)
    ∧ files removed = files self
    ∧ _blueprints removed
      = <[with_extension blueprint_path := None]> (_blueprints self)
    ∧ async_get_blueprint removed (with_extension blueprint_path)
      = (Return None, removed).
Proof.
  intros Hnone Hex Hmk Hw. eexists. eexists. split.
  { unfold async_add_blueprint, _create_file. rewrite Hex, Hmk. simpl.
    by rewrite Hw. }
  split.
  { unfold async_remove_blueprint.
    cbn [files dirs set_files set_dirs set_blueprints file_of domain].
    by rewrite lookup_insert_eq. }
  cbn [files dirs set_files set_dirs set_blueprints _blueprints file_of domain].
  split; [by rewrite delete_insert_eq, delete_id|].
  split; [by rewrite insert_insert_eq|].
  apply get_blueprint_cached. apply lookup_insert_eq.
Qed.

(** X15. A removed path can be added again: after a successful
    [async_remove_blueprint] of a path with the extension, when the path
    is then gone, its parent directories are there or can be made and it
    opens for writing under its own name, adding a blueprint under that
    path succeeds and the path is served from the cache with the new
    blueprint. *)
Theorem remove_then_add_blueprint (self : t) (blueprint : Blueprint.t)
    (blueprint_path : string) (made : gset string) :
  endswith blueprint_path ".yaml" = true →
  is_Some (files self !! file_of self blueprint_path) →
  path_exists (delete (file_of self blueprint_path) (files self)) (dirs self)
    (file_of self blueprint_path) = false →
  parent_mkdir (delete (file_of self blueprint_path) (files self)) (dirs self)
    (file_of self blueprint_path) = (None, made) →
  write_target (delete (file_of self blueprint_path) (files self)) made
    (file_of self blueprint_path) = inr (file_of self blueprint_path) →
  ∃ removed added,
    async_remove_blueprint self blueprint_path = (Return (), removed)
    ∧ async_add_blueprint removed blueprint blueprint_path = (Return (), added)
    ∧ files added
      = <[file_of self blueprint_path := Blueprint.yaml blueprint]> (files self)
    ∧ async_get_blueprint added blueprint_path = (Return (Some blueprint), added).
Proof.
  intros Hext [text Hfile] Hex Hmk Hw. eexists. eexists. split.
  { unfold async_remove_blueprint. by rewrite Hfile. }
  assert (Hwe : with_extension blueprint_path = blueprint_path)
    by (unfold with_extension; by rewrite Hext).
  split.
  { unfold async_add_blueprint, _create_file. rewrite Hwe.
    unfold file_of in *. simpl. rewrite Hex, Hmk. simpl.
    by rewrite Hw. }
  cbn [files dirs set_files set_dirs set_blueprints _blueprints file_of domain].
  split; [by rewrite insert_delete_eq|].
  apply get_blueprint_cached. apply lookup_insert_eq.
Qed.

End more_registry_properties.

(** ** Listing the blueprints *)

Section listing_properties.
Context `{Collaborators}.
Import DomainBlueprints.

(** The loop of [_load_blueprints] writes no file, keeps the domain and
    only adds to the log of reads, however it ends. *)
Lemma load_blueprints_loop_state (paths : list string)
    (results : gmap string (exception + option Blueprint.t)) (self : t) :
  files (_load_blueprints_loop paths results self).2 = files self
  ∧ domain (_load_blueprints_loop paths results self).2 = domain self
  ∧ disk_reads self `prefix_of` disk_reads (_load_blueprints_loop paths results self).2.
Proof.
  revert results self. induction paths as [|p paths IH]; intros results self; simpl.
  { done. }
  destruct (get_is_None self p); [|apply IH].
  pose proof (load_blueprint_state self p) as Hst.
  destruct (_load_blueprint self p) as [[e|b] s] eqn:Hl; simpl in Hst; subst s.
  - destruct (is_BlueprintException e); simpl.
    + destruct (IH (<[p:=inl e]> results)
                  (set_blueprints (log_read self (file_of self p))
                     (<[p:=None]> (_blueprints (log_read self (file_of self p))))))
        as (Hf & Hd & Hr).
      split; [done|]. split; [done|].
      etrans; [|exact Hr]. simpl. by apply prefix_app_r.
    + repeat split; try done. by apply prefix_app_r.
  - destruct (IH (<[p:=inr (Some b)]> results)
                (set_blueprints (log_read self (file_of self p))
                   (<[p:=Some b]> (_blueprints (log_read self (file_of self p))))))
      as (Hf & Hd & Hr).
    split; [done|]. split; [done|].
    etrans; [|exact Hr]. simpl. by apply prefix_app_r.
Qed.

Lemma load_blueprints_loop_Return (self0 : t) (paths : list string)
    (results results' : gmap string (exception + option Blueprint.t))
    (self self' : t) :
  files self = files self0 → domain self = domain self0 →
  results_agree self0 results (_blueprints self) →
  cache_origin self0 (_blueprints self) →
  _load_blueprints_loop paths results self = (Return results', self') →
  results_agree self0 results' (_blueprints self')
  ∧ cache_origin self0 (_blueprints self')
  ∧ dom results' = dom results ∪ list_to_set paths.
Proof.
  revert results self.
  induction paths as [|p paths IH]; intros results self Hf Hd Hagree Horigin; simpl.
  { intros [= <- <-]. repeat split; try done.
    by rewrite (right_id_L ∅ (∪)). }
  assert (Hdom : ∀ (x : exception + option Blueprint.t),
            dom (<[p:=x]> results) ∪ list_to_set paths
            = dom results ∪ ({[p]} ∪ list_to_set paths) :> gset string).
  { intros x. rewrite dom_insert_L, (comm_L (∪) {[p]} (dom results)).
    by rewrite (assoc_L (∪)). }
  destruct (get_is_None self p) eqn:Hnone.
  - pose proof (load_blueprint_state self p) as Hst.
    pose proof (load_blueprint_result self self0 p Hf Hd) as Hres.
    destruct (_load_blueprint self p) as [[e|b] s] eqn:Hl; simpl in Hst, Hres; subst s.
    + destruct (is_BlueprintException e) eqn:He; [|done].
      intros Hloop. apply IH in Hloop as (Ha & Ho & Hdm); try done.
      * repeat split; try done. by rewrite Hdm, Hdom.
      * intros q entry. simpl. rewrite lookup_insert.
        destruct (decide (p = q)) as [<-|Hpq].
        -- intros [= <-]. rewrite lookup_insert_eq. done.
        -- intros Hq. specialize (Hagree q entry Hq).
           destruct entry as [err|[b|]]; rewrite ?lookup_insert_ne; done.
      * intros q b. simpl. rewrite lookup_insert.
        destruct (decide (p = q)); [done|]. apply Horigin.
    + intros Hloop. apply IH in Hloop as (Ha & Ho & Hdm); try done.
      * repeat split; try done. by rewrite Hdm, Hdom.
      * intros q entry. simpl. rewrite lookup_insert.
        destruct (decide (p = q)) as [<-|Hpq].
        -- intros [= <-]. by rewrite lookup_insert_eq.
        -- intros Hq. specialize (Hagree q entry Hq).
           destruct entry as [err|[b'|]]; rewrite ?lookup_insert_ne; done.
      * intros q b'. simpl. rewrite lookup_insert.
        destruct (decide (p = q)) as [<-|]; [|apply Horigin].
        intros [= <-]. by right.
  - unfold get_is_None in Hnone.
    destruct (_blueprints self !! p) as [[b|]|] eqn:Hc; try done.
    intros Hloop. apply IH in Hloop as (Ha & Ho & Hdm); try done.
    + repeat split; try done. by rewrite Hdm, Hdom.
    + intros q entry. rewrite lookup_insert.
      destruct (decide (p = q)) as [<-|Hpq]; [|apply Hagree].
      intros [= <-]. done.
Qed.

(** X16. When [async_get_blueprints] returns, it lists exactly the
    globbed paths; the files are untouched; a blueprint listed for a path
    is the one now cached for it, and an error listed for a path is the
    blueprint exception that loading its file raised, the path being
    cached as [None]. *)
Theorem get_blueprints_results (self self' : t)
    (results : gmap string (exception + option Blueprint.t)) :
  async_get_blueprints self = (Return results, self') →
  dom results
  = list_to_set (glob_yaml (files self) (config_path [BLUEPRINT_FOLDER; domain self]))
  ∧ files self' = files self
  ∧ results_agree self results (_blueprints self').
Proof.
  unfold async_get_blueprints, _load_blueprints. intros Hloop.
  pose proof (load_blueprints_loop_state
                (glob_yaml (files self) (config_path [BLUEPRINT_FOLDER; domain self]))
                ∅ self) as (Hf & _). rewrite Hloop in Hf.
  apply (load_blueprints_loop_Return self) in Hloop as (Ha & _ & Hdm); try done.
  - repeat split; try done. by rewrite Hdm, dom_empty_L, (left_id_L ∅ (∪)).
  - intros q b Hq. by left.
Qed.

(** X17. A rescan gets a path out of the failed state.  When a globbed
    path is not cached with a blueprint (it is unknown, or cached as
    failed) and its file now loads, then after [async_get_blueprints]
    returns, the path is cached with the loaded blueprint and listed with
    it. *)
Theorem get_blueprints_reloads_failed (self self' : t)
    (results : gmap string (exception + option Blueprint.t))
    (blueprint_path : string) (b : Blueprint.t) :
  blueprint_path
    ∈ glob_yaml (files self) (config_path [BLUEPRINT_FOLDER; domain self]) →
  ¬ cached_valid self blueprint_path →
  (_load_blueprint self blueprint_path).1 = Return b →
  async_get_blueprints self = (Return results, self') →
  _blueprints self' !! blueprint_path = Some (Some b)
  ∧ results !! blueprint_path = Some (inr (Some b)).
Proof.
  unfold async_get_blueprints, _load_blueprints. intros Hin Hnv Hload Hloop.
  apply (load_blueprints_loop_Return self) in Hloop as (Ha & Ho & Hdm); try done.
  - assert (is_Some (results !! blueprint_path)) as [entry Hentry].
    { apply elem_of_dom. rewrite Hdm. apply elem_of_union. right.
      by apply elem_of_list_to_set. }
    specialize (Ha _ _ Hentry). destruct entry as [err|[b'|]]; try done.
    + destruct Ha as (_ & _ & Herr). congruence.
    + destruct (Ho _ _ Ha) as [Hc|Hl].
      * destruct Hnv. by exists b'.
      * assert (b' = b) as -> by congruence. done.
  - intros q b' Hq. by left.
Qed.

(** X18. When every globbed path is cached with a blueprint,
    [async_get_blueprints] reads nothing and changes nothing. *)
Theorem get_blueprints_all_cached (self : t) :
  (∀ p, p ∈ glob_yaml (files self) (config_path [BLUEPRINT_FOLDER; domain self]) →
        cached_valid self p) →
  ∃ results,
    async_get_blueprints self = (Return results, self)
    ∧ ∀ p, p ∈ glob_yaml (files self) (config_path [BLUEPRINT_FOLDER; domain self]) →
           ∃ b, results !! p = Some (inr (Some b))
                ∧ _blueprints self !! p = Some (Some b).
Proof.
  unfold async_get_blueprints, _load_blueprints.
  generalize (glob_yaml (files self) (config_path [BLUEPRINT_FOLDER; domain self])).
  intros paths.
  assert (∀ results0,
            (∀ p, p ∈ paths → cached_valid self p) →
            ∃ results,
              _load_blueprints_loop paths results0 self = (Return results, self)
              ∧ (∀ p, p ∈ paths →
                   ∃ b, results !! p = Some (inr (Some b))
                        ∧ _blueprints self !! p = Some (Some b))
              ∧ ∀ p, p ∉ paths → results !! p = results0 !! p) as Hgen.
  { induction paths as [|p paths IH]; intros results0 Hall; simpl.
    - exists results0. repeat split; try done. by intros p ?%elem_of_nil.
    - destruct (Hall p) as [b Hb]; [apply elem_of_cons; by left|].
      unfold get_is_None. rewrite Hb. simpl.
      destruct (IH (<[p:=inr (Some b)]> results0)) as (results & Hloop & Hres & Hout).
      { intros q Hq. apply Hall, elem_of_cons. by right. }
      exists results. split; [done|]. split.
      + intros q [Heq|Hq]%elem_of_cons; [subst q|by apply Hres].
        destruct (decide (p ∈ paths)) as [Hq|Hq]; [by apply Hres|].
        exists b. by rewrite (Hout p Hq), lookup_insert_eq.
      + intros q [Hqp Hq]%not_elem_of_cons.
        by rewrite (Hout q Hq), lookup_insert_ne. }
  intros Hall. destruct (Hgen ∅ Hall) as (results & Hloop & Hres & _).
  by exists results.
Qed.

(** X19. A file that does not load never breaks the listing: with a YAML
    reader that fails only with [HomeAssistantError]s,
    [async_get_blueprints] always returns. *)
Theorem get_blueprints_returns (self : t) :
  (∀ text err, yaml_parse text = Raise err → is_load_error err = true) →
  ∃ results self', async_get_blueprints self = (Return results, self').
Proof.
  intros Hreader. unfold async_get_blueprints, _load_blueprints.
  generalize (glob_yaml (files self) (config_path [BLUEPRINT_FOLDER; domain self])).
  generalize (∅ : gmap string (exception + option Blueprint.t)).
  intros results paths. revert results self.
  induction paths as [|p paths IH]; intros results self; simpl.
  { by eexists _, _. }
  destruct (get_is_None self p); [|apply IH].
  destruct (_load_blueprint self p) as [[e|b] s] eqn:Hl; [|apply IH].
  destruct (load_blueprint_Raise self s p e Hreader Hl) as [[cause ->]|He].
  - apply IH.
  - destruct e; try done. apply IH.
Qed.

End listing_properties.

(** ** What no operation does *)

Section operation_properties.
Context `{Collaborators}.
Import DomainBlueprints.

Lemma get_blueprint_state (self : t) (blueprint_path : string) :
  files (async_get_blueprint self blueprint_path).2 = files self
  ∧ domain (async_get_blueprint self blueprint_path).2 = domain self
  ∧ disk_reads self `prefix_of` disk_reads (async_get_blueprint self blueprint_path).2.
Proof.
  unfold async_get_blueprint.
  destruct (_blueprints self !! blueprint_path); [done|].
  pose proof (load_blueprint_state self blueprint_path) as Hst.
  destruct (_load_blueprint self blueprint_path) as [[e|b] s]; simpl in Hst; subst s;
    simpl; repeat split; try done; by apply prefix_app_r.
Qed.

Lemma perform_state (op : operation) (self : t) :
  domain (perform op self) = domain self
  ∧ disk_reads self `prefix_of` disk_reads (perform op self)
  ∧ (is_read_only op = true → files (perform op self) = files self).
Proof.
  destruct op as [| |p|config|p|b p|fname text|fname]; simpl; try done.
  - destruct (load_blueprints_loop_state
                (glob_yaml (files self) (config_path [BLUEPRINT_FOLDER; domain self]))
                ∅ self) as (Hf & Hd & Hr). done.
  - destruct (get_blueprint_state self p) as (Hf & Hd & Hr). done.
  - unfold async_inputs_from_config.
    destruct (BLUEPRINT_INSTANCE_FIELDS config) as [|config']; [done|].
    destruct (_ ← getitem (Mapping config') CONF_USE_BLUEPRINT; _) as [|p]; [done|].
    destruct (get_blueprint_state self p) as (Hf & Hd & Hr).
    destruct (async_get_blueprint self p) as [[e|[b|]] s]; try done.
    by destruct (BlueprintInputs.validate _).
  - unfold async_remove_blueprint.
    by destruct (files self !! file_of self p).
  - unfold async_add_blueprint, _create_file.
    destruct (path_exists _ _ _); [done|].
    destruct (parent_mkdir _ _ _) as [[e|] made]; [done|]. simpl.
    by destruct (write_target _ _ _).
Qed.

(** X20. Through any sequence of operations the registry keeps its
    domain and its log of disk reads only grows; a sequence of reading
    operations (get, list, instantiate, reset) leaves every file as it
    is. *)
Theorem run_keeps_domain_and_files (ops : list operation) (self : t) :
  domain (run ops self) = domain self
  ∧ disk_reads self `prefix_of` disk_reads (run ops self)
  ∧ (forallb is_read_only ops = true → files (run ops self) = files self).
Proof.
  revert self. induction ops as [|op ops IH]; intros self; [done|].
  destruct (perform_state op self) as (Hd & Hr & Hf).
  destruct (IH (perform op self)) as (Hd' & Hr' & Hf').
  simpl. split; [by rewrite Hd'|]. split; [by etrans|].
  intros [Hop Hops]%andb_prop. rewrite (Hf' Hops). by apply Hf.
Qed.

(** X21. After a failed load, instantiating loses the diagnostic.  With a
    configuration that names an uncached path whose load fails with [e],
    [async_inputs_from_config] raises [e]; called again, it raises
    [AttributeError], because the cached [None] is handed to
    [BlueprintInputs] as if it were a blueprint. *)
Theorem inputs_from_config_after_failure (self self' : t)
    (config config' use : dict) (blueprint_path : string) (e : exception) :
  BLUEPRINT_INSTANCE_FIELDS config = inr config' →
  dict_get CONF_USE_BLUEPRINT config' = Some (Mapping use) →
  dict_get CONF_PATH use = Some (Str blueprint_path) →
  _blueprints self !! blueprint_path = None →
  _load_blueprint self blueprint_path = (Raise e, self') →
  ∃ failed,
    async_inputs_from_config self config = (Raise e, failed)
    ∧ cached_failed failed blueprint_path
    ∧ async_inputs_from_config failed config = (Raise AttributeError, failed).
Proof.
  intros Hschema Huse Hpath Hnone Hload.
  unfold async_inputs_from_config. rewrite Hschema.
  unfold getitem. unfold_result. rewrite Huse, Hpath. cbn [as_str].
  unfold async_get_blueprint at 1. rewrite Hnone, Hload.
  eexists. split; [done|].
  assert (Hc : _blueprints
                 (set_blueprints self' (<[blueprint_path:=None]> (_blueprints self')))
               !! blueprint_path = Some None) by apply lookup_insert_eq.
  split; [done|]. by rewrite (get_blueprint_cached _ _ _ Hc).
Qed.

(** X22. What [async_inputs_from_config] returns is ready to use: the
    inputs carry the validated configuration and the blueprint now cached
    for the path the configuration names, and [validate] accepts them.
    When the path was not cached before, that blueprint was constructed
    from the document in the path's file, for the registry's domain. *)
Theorem inputs_from_config_Return (self self' : t) (config config' use : dict)
    (blueprint_path : string) (inputs : BlueprintInputs.t) :
  BLUEPRINT_INSTANCE_FIELDS config = inr config' →
  dict_get CONF_USE_BLUEPRINT config' = Some (Mapping use) →
  dict_get CONF_PATH use = Some (Str blueprint_path) →
  async_inputs_from_config self config = (Return inputs, self') →
  BlueprintInputs.config_with_inputs inputs = config'
  ∧ _blueprints self' !! blueprint_path
    = Some (Some (BlueprintInputs.blueprint inputs))
  ∧ BlueprintInputs.validate inputs = Return ()
  ∧ files self' = files self
  ∧ (_blueprints self !! blueprint_path = None →
     Blueprint.domain (BlueprintInputs.blueprint inputs) = domain self
     ∧ ∃ text D,
         files self !! file_of self blueprint_path = Some text
         ∧ yaml_parse text = Return D
         ∧ Blueprint.__init__ D (Some blueprint_path) (Some (domain self))
           = Return (BlueprintInputs.blueprint inputs)).
Proof.
  intros Hschema Huse Hpath.
  unfold async_inputs_from_config. rewrite Hschema.
  unfold getitem. unfold_result. rewrite Huse, Hpath. cbn [as_str].
  destruct (get_blueprint_state self blueprint_path) as (Hf & _).
  unfold async_get_blueprint in *.
  destruct (_blueprints self !! blueprint_path) as [[b|]|] eqn:Hc; try done.
  - destruct (BlueprintInputs.validate _) as [|[]] eqn:Hv; [done|].
    intros [= <- <-]. done.
  - destruct (_load_blueprint self blueprint_path) as [[e|b] s] eqn:Hl; [done|].
    destruct (BlueprintInputs.validate _) as [|[]] eqn:Hv; [done|].
    intros [= <- <-]. simpl. split; [done|].
    split; [apply lookup_insert_eq|]. split; [done|]. split; [done|].
    intros _. destruct (load_blueprint_Return _ _ _ _ Hl) as (text & D & ? & ? & Hinit).
    split; [|by exists text, D].
    by apply Blueprint_init_expected_domain in Hinit as [? _].
Qed.

End operation_properties.

(** ** More on concurrent calls *)

Section more_loop_properties.
Context `{Collaborators}.
Import EventLoop.

(** While the lock is held, some call is loading. *)
Lemma step_lock_holder (i : nat) (l l' : loop) :
  (locked l = true → ∃ j c, calls l !! j = Some c ∧ at_pc c = Loading) →
  step i l = Some l' →
  locked l' = true → ∃ j c, calls l' !! j = Some c ∧ at_pc c = Loading.
Proof.
  intros Hinv Hstep. unfold step in Hstep.
  destruct (calls l !! i) as [c|] eqn:Hc; [|done]. simpl in Hstep.
  destruct (resume c (registry l) (locked l)) as [[[p self'] lock']|] eqn:Hres;
    [|done].
  simpl in Hstep. injection Hstep as <-. simpl. intros ->.
  assert (Hi : i < length (calls l)) by (by apply lookup_lt_Some in Hc).
  assert (Hother : locked l = true → at_pc c ≠ Loading →
            ∃ j c', <[i:={| blueprint_path := blueprint_path c; at_pc := p |}]>
                      (calls l) !! j = Some c' ∧ at_pc c' = Loading).
  { intros Hl Hnl. destruct (Hinv Hl) as (j & c' & Hj & Hpc).
    exists j, c'. split; [|done]. rewrite list_lookup_insert_ne; [done|].
    intros ->. congruence. }
  assert (Hself : p = Loading →
            ∃ j c', <[i:={| blueprint_path := blueprint_path c; at_pc := p |}]>
                      (calls l) !! j = Some c' ∧ at_pc c' = Loading).
  { intros ->. eexists i, _. split; [by apply list_lookup_insert_eq|done]. }
  unfold resume, check_again in Hres.
  destruct (at_pc c) eqn:Hpc.
  - destruct (DomainBlueprints._blueprints (registry l) !! blueprint_path c).
    + simplify_eq. by apply Hother.
    + destruct (locked l) eqn:Hl; simplify_eq; [by apply Hother | by apply Hself].
  - destruct (locked l) eqn:Hl; [done|].
    destruct (DomainBlueprints._blueprints (registry l) !! blueprint_path c);
      simplify_eq. by apply Hself.
  - destruct (finish_load (registry l) (blueprint_path c)). simplify_eq.
  - done.
Qed.

Lemma run_lock_holder (schedule : list nat) (l l' : loop) :
  (locked l = true → ∃ j c, calls l !! j = Some c ∧ at_pc c = Loading) →
  run schedule l = Some l' →
  locked l' = true → ∃ j c, calls l' !! j = Some c ∧ at_pc c = Loading.
Proof.
  revert l. induction schedule as [|i schedule IH]; intros l Hinv Hrun;
    simpl in Hrun.
  - by injection Hrun as <-.
  - destruct (step i l) as [l1|] eqn:Hstep; [|done]. simpl in Hrun.
    apply (IH l1); [|done]. by apply (step_lock_holder i l).
Qed.

(** X23. The event loop never deadlocks on the load lock: however the
    callers of [async_get_blueprint] have been scheduled, as long as one of
    them has not finished, one of them can run. *)
Theorem get_blueprint_no_deadlock (self : DomainBlueprints.t) (path : string)
    (n : nat) (schedule : list nat) (l : loop) :
  run schedule (gather self path n) = Some l →
  (∃ c, c ∈ calls l ∧ ∀ r, at_pc c ≠ Finished r) →
  ∃ i l', step i l = Some l'.
Proof.
  intros Hrun (c & [i Hi]%list_elem_of_lookup & Hunfinished).
  assert (Hlock : locked l = true →
            ∃ j c', calls l !! j = Some c' ∧ at_pc c' = Loading).
  { apply (run_lock_holder schedule (gather self path n)); [|done].
    simpl. discriminate. }
  assert (Hrunnable : ∀ j c', calls l !! j = Some c' →
            is_Some (resume c' (registry l) (locked l)) →
            ∃ i l', step i l = Some l').
  { intros j c' Hj [[[p s] k] Hres]. exists j. unfold step.
    rewrite Hj. simpl. rewrite Hres. simpl. by eexists. }
  destruct (at_pc c) eqn:Hpc.
  - apply (Hrunnable i c Hi). unfold resume, check_again. rewrite Hpc.
    destruct (DomainBlueprints._blueprints (registry l) !! blueprint_path c);
      [by eexists|]. by destruct (locked l).
  - destruct (locked l) eqn:Hl.
    + destruct (Hlock eq_refl) as (j & c' & Hj & Hpc').
      apply (Hrunnable j c' Hj). unfold resume. rewrite Hpc'.
      by destruct (finish_load (registry l) (blueprint_path c')).
    + apply (Hrunnable i c Hi). unfold resume, check_again. rewrite Hpc, ?Hl.
      by destruct (DomainBlueprints._blueprints (registry l) !! blueprint_path c).
  - apply (Hrunnable i c Hi). unfold resume. rewrite Hpc.
    by destruct (finish_load (registry l) (blueprint_path c)).
  - by destruct (Hunfinished r).
Qed.

Lemma sum_list_with_insert {A} (f : A → nat) (l : list A) (i : nat) (x y : A) :
  l !! i = Some x →
  sum_list_with f (<[i:=y]> l) + f x = sum_list_with f l + f y.
Proof.
  revert i. induction l as [|a l IH]; intros [|i]; simpl; try done.
  - intros [= ->]. lia.
  - intros Hi. specialize (IH i Hi). lia.
Qed.

Lemma step_work (i : nat) (l l' : loop) :
  step i l = Some l' → work l' < work l.
Proof.
  intros Hstep. unfold step in Hstep.
  destruct (calls l !! i) as [c|] eqn:Hc; [|done]. simpl in Hstep.
  destruct (resume c (registry l) (locked l)) as [[[p self'] lock']|] eqn:Hres;
    [|done].
  simpl in Hstep. injection Hstep as <-. unfold work. simpl.
  pose proof (sum_list_with_insert (λ c, rank (at_pc c)) (calls l) i c
                {| blueprint_path := blueprint_path c; at_pc := p |} Hc) as Hsum.
  simpl in Hsum.
  assert (rank p < rank (at_pc c)); [|lia].
  unfold resume, check_again in Hres. destruct (at_pc c); simpl.
  - destruct (DomainBlueprints._blueprints (registry l) !! blueprint_path c).
    + injection Hres as <- _ _. simpl. lia.
    + destruct (locked l); injection Hres as <- _ _; simpl; lia.
  - destruct (locked l); [done|].
    destruct (DomainBlueprints._blueprints (registry l) !! blueprint_path c);
      injection Hres as <- _ _; simpl; lia.
  - unfold finish_load in Hres.
    destruct (DomainBlueprints._load_blueprint (registry l) (blueprint_path c))
      as [[e|b] s]; injection Hres as <- _ _; simpl; lia.
  - done.
Qed.

(** X24. The callers of [async_get_blueprint] finish: each runs at most
    three times (the fast path, the lock, the load), so a schedule for [n]
    callers has at most [3 * n] steps. *)
Theorem get_blueprint_calls_terminate (self : DomainBlueprints.t) (path : string)
    (n : nat) (schedule : list nat) (l : loop) :
  run schedule (gather self path n) = Some l →
  length schedule + work l ≤ 3 * n.
Proof.
  assert (Hgen : ∀ l0, run schedule l0 = Some l → length schedule + work l ≤ work l0).
  { induction schedule as [|i schedule IH]; intros l0 Hrun; simpl in Hrun.
    - injection Hrun as <-. simpl. lia.
    - destruct (step i l0) as [l1|] eqn:Hstep; [|done]. simpl in Hrun.
      apply step_work in Hstep. specialize (IH l1 Hrun). simpl. lia. }
  intros Hrun. apply Hgen in Hrun.
  assert (Hw : work (gather self path n) = 3 * n).
  { unfold work, gather. simpl. clear Hrun. induction n as [|n IH]; [done|].
    simpl replicate. simpl sum_list_with. rewrite IH. simpl. lia. }
  by rewrite <- Hw.
Qed.

End more_loop_properties.

(** ** More on deCONZ devices *)

Section more_deconz_properties.

Lemma partition_first (sep : ascii) (before after : string) :
  DeconzBase.count sep before = 0 →
  DeconzBase.partition sep (before +:+ String sep after) = Some (before, after).
Proof.
  induction before as [|a before IH]; simpl.
  - intros _. by rewrite decide_True.
  - destruct (decide (a = sep)); [done|]. intros Hc. by rewrite (IH Hc).
Qed.

(** X25. The entities of one device share their serial: two unique ids
    with seven [:] each that agree up to their first [-] give the same
    serial, the common part, and so the same device identifiers and
    connections. *)
Theorem serial_shared_by_endpoints (CONNECTION_ZIGBEE DECONZ_DOMAIN : string)
    (self self' : DeconzBase.t) (mac endpoint endpoint' : string) :
  DeconzBase.uniqueid (DeconzBase._device self)
  = Some (mac +:+ String "-" endpoint) →
  DeconzBase.uniqueid (DeconzBase._device self')
  = Some (mac +:+ String "-" endpoint') →
  DeconzBase.count ":" (mac +:+ String "-" endpoint) = 7 →
  DeconzBase.count ":" (mac +:+ String "-" endpoint') = 7 →
  DeconzBase.count "-" mac = 0 →
  DeconzBase.serial self = Some mac
  ∧ DeconzBase.serial self' = Some mac
  ∧ ∃ info info',
      DeconzBase.device_info CONNECTION_ZIGBEE DECONZ_DOMAIN self = Some info
      ∧ DeconzBase.device_info CONNECTION_ZIGBEE DECONZ_DOMAIN self' = Some info'
      ∧ DeconzBase.identifiers info = DeconzBase.identifiers info'
      ∧ DeconzBase.connections info = DeconzBase.connections info'.
Proof.
  intros Hu Hu' H7 H7' Hmac.
  assert (Hs : DeconzBase.serial self = Some mac).
  { unfold DeconzBase.serial, DeconzBase.split1. rewrite Hu.
    rewrite decide_False by (intros Hn; by apply Hn).
    by rewrite partition_first. }
  assert (Hs' : DeconzBase.serial self' = Some mac).
  { unfold DeconzBase.serial, DeconzBase.split1. rewrite Hu'.
    rewrite decide_False by (intros Hn; by apply Hn).
    by rewrite partition_first. }
  split; [done|]. split; [done|].
  unfold DeconzBase.device_info. rewrite Hs, Hs'. by eexists _, _.
Qed.

Import DeconzDevice.

(** X26. An entity's life leaves the gateway as it found it.  When the
    gateway knows the entity's type, does not yet hold its unique id and
    has no entry for its entity id, then constructing the entity, adding
    it to Home Assistant and removing it again all succeed, and [entities]
    and [deconz_ids] are what they were; the device callback has been
    registered and removed. *)
Theorem entity_life_cycle (self : t) (gw : gateway_state)
    (ids : gset (option string)) :
  entities gw !! TYPE self = Some ids →
  unique_id self ∉ ids →
  deconz_ids gw !! entity_id self = None →
  ∃ created removed,
    __init__ self gw = (Return (), created)
    ∧ entities created !! TYPE self = Some ({[ unique_id self ]} ∪ ids)
    ∧ deconz_ids (async_added_to_hass self created) !! entity_id self
      = Some (deconz_id self)
    ∧ async_will_remove_from_hass self (async_added_to_hass self created)
      = (Return (), removed)
    ∧ entities removed = entities gw
    ∧ deconz_ids removed = deconz_ids gw
    ∧ calls removed
      = calls gw ++ [register_callback (unique_id self);
                     dispatcher_connect (signal_reachable gw);
                     remove_callback (unique_id self)].
Proof.
  intros Hids Hnew Hnone. eexists _, _. split.
  { unfold __init__. rewrite Hids. reflexivity. }
  split; [apply lookup_insert_eq|]. split; [apply lookup_insert_eq|].
  split.
  { unfold async_will_remove_from_hass, async_added_to_hass. simpl.
    rewrite lookup_insert_eq. simpl. rewrite lookup_insert_eq.
    rewrite decide_True; [reflexivity|].
    apply elem_of_union. left. by apply elem_of_singleton. }
  simpl. split; [|split].
  - rewrite insert_insert_eq.
    replace (({[unique_id self]} ∪ ids) ∖ {[unique_id self]}) with ids.
    + by apply insert_id.
    + apply set_eq. intros x. rewrite elem_of_difference, elem_of_union,
        elem_of_singleton. split.
      * intros Hx. split; [by right|]. intros ->. done.
      * intros [[->|Hx] Hn]; done.
  - rewrite delete_insert_eq. by apply delete_id.
  - by rewrite <- !(assoc_L (++)).
Qed.

(** Removing an entity that was never added fails half way:
    [async_will_remove_from_hass] has removed the device callback when the
    missing entry of [deconz_ids] raises [KeyError], and the unique id
    stays in [entities]. *)
Theorem entity_removed_before_added (self : t) (gw : gateway_state) :
  deconz_ids gw !! entity_id self = None →
  async_will_remove_from_hass self gw
  = (Raise (KeyError (entity_id self)),
     log_call gw (remove_callback (unique_id self)))
  ∧ entities (async_will_remove_from_hass self gw).2 = entities gw.
Proof.
  intros Hnone. unfold async_will_remove_from_hass. simpl. by rewrite Hnone.
Qed.

(** X27. Two entities with one unique id and type cannot both be
    removed: after both were constructed and added, removing the first
    takes the shared unique id out of [entities], and removing the second
    raises [KeyError] for it, its entry of [deconz_ids] already deleted. *)
Theorem entity_duplicate_unique_id (self self' : t) (gw : gateway_state)
    (ids : gset (option string)) :
  unique_id self' = unique_id self →
  TYPE self' = TYPE self →
  entity_id self' ≠ entity_id self →
  entities gw !! TYPE self = Some ids →
  unique_id self ∉ ids →
  ∃ gw1 gw2 gw3 gw4,
    __init__ self gw = (Return (), gw1)
    ∧ __init__ self' gw1 = (Return (), gw2)
    ∧ entities gw2 = entities gw1
    ∧ async_will_remove_from_hass self
        (async_added_to_hass self' (async_added_to_hass self gw2))
      = (Return (), gw3)
    ∧ async_will_remove_from_hass self' gw3
      = (Raise (KeyError (repr (unique_id self))), gw4)
    ∧ deconz_ids gw4 !! entity_id self' = None.
Proof.
  intros Huid Htype Hid Hids Hnew.
  eexists _, _, _, _. split.
  { unfold __init__. rewrite Hids. reflexivity. }
  split.
  { unfold __init__. rewrite Htype, Huid. simpl. rewrite lookup_insert_eq.
    reflexivity. }
  split.
  { assert (Hset : {[unique_id self]} ∪ ({[unique_id self]} ∪ ids)
                   = {[unique_id self]} ∪ ids :> gset (option string)).
    { apply set_eq. intros x. rewrite !elem_of_union. tauto. }
    simpl. by rewrite insert_insert_eq, Hset. }
  split.
  { unfold async_will_remove_from_hass, async_added_to_hass. simpl.
    rewrite (lookup_insert_ne _ (entity_id self')) by done.
    rewrite !lookup_insert_eq.
    rewrite decide_True; [reflexivity|].
    apply elem_of_union. left. by apply elem_of_singleton. }
  split.
  { unfold async_will_remove_from_hass. simpl. rewrite Htype, Huid.
    rewrite (lookup_delete_ne _ (entity_id self)) by done.
    rewrite !lookup_insert_eq.
    rewrite decide_False; [reflexivity|].
    rewrite elem_of_difference, elem_of_singleton. by intros [_ ?]. }
  simpl. apply lookup_delete_eq.
Qed.

End more_deconz_properties.

(** ** The further properties on the example scenario *)

Section scenario_more.
Import Scenario.
#[local] Existing Instance collaborators.

(** The reader of the scenario fails only with [HomeAssistantError]. *)
Lemma parse_raises (text : string) (err : exception) :
  parse text = Raise err → DomainBlueprints.is_load_error err = true.
Proof.
  unfold parse. destruct (List.find _ known_documents); [done|].
  by intros [= <-].
Qed.

Lemma Blueprint_init_raises_InvalidBlueprint_witness :
  is_InvalidBlueprint
    (InvalidBlueprint (Some "automation") (Some "Test") undeclared_other
       (Message "Missing input definition for other")) = true.
Proof.
  apply (Blueprint_init_raises_InvalidBlueprint undeclared_other None None).
  reflexivity.
Defined.

Lemma Blueprint_init_expected_domain_witness :
  Blueprint.domain (blueprint_of declared_target) = "automation"
  ∧ Blueprint.domain_of (Blueprint.data (blueprint_of declared_target))
    = Return "automation".
Proof.
  apply (Blueprint_init_expected_domain declared_target (Some "test.yaml")).
  reflexivity.
Defined.

Lemma Blueprint_init_domain_mismatch_witness :
  ∃ nm,
    Blueprint.__init__ declared_target (Some "test.yaml") (Some "script")
    = Raise (InvalidBlueprint (Some "script") (Some nm) declared_target
               (Message ("Found incorrect blueprint type " +:+ "automation"
                         +:+ ", expected " +:+ "script")))
    ∧ nm = "test.yaml".
Proof.
  apply (Blueprint_init_domain_mismatch declared_target declared_target
           "automation" "script" (Some "test.yaml")).
  - reflexivity.
  - reflexivity.
  - discriminate.
Defined.

Lemma Blueprint_update_metadata_source_url_witness :
  Blueprint.update_metadata (blueprint_of declared_target) None
  = Return (blueprint_of declared_target).
Proof.
  apply (Blueprint_update_metadata_source_url declared_target None None
           (blueprint_of declared_target) "https://example.com/test.yaml").
  reflexivity.
Defined.

Lemma BlueprintInputs_validate_more_inputs_witness :
  BlueprintInputs.validate
    {| BlueprintInputs.blueprint := blueprint_of declared_target;
       BlueprintInputs.config_with_inputs :=
         use_blueprint [("target", Str "light.kitchen"); ("unused", Null)] |}
  = Return ().
Proof.
  apply (BlueprintInputs_validate_more_inputs (blueprint_of declared_target)
           (use_blueprint [("target", Str "light.kitchen")])
           (use_blueprint [("target", Str "light.kitchen"); ("unused", Null)])
           [("target", Str "light.kitchen")]
           [("target", Str "light.kitchen"); ("unused", Null)]).
  - reflexivity.
  - reflexivity.
  - intros x Hx. apply elem_of_cons in Hx as [->|Hx]; [apply list_elem_of_here|].
    by apply elem_of_nil in Hx.
  - reflexivity.
Defined.

Lemma BlueprintInputs_validate_declared_witness :
  BlueprintInputs.validate
    {| BlueprintInputs.blueprint := blueprint_of declared_target;
       BlueprintInputs.config_with_inputs :=
         use_blueprint [("target", Str "light.kitchen")] |}
  = Return ().
Proof.
  apply (BlueprintInputs_validate_declared declared_target None None
           (blueprint_of declared_target) (list_to_set ["target"])
           (use_blueprint [("target", Str "light.kitchen")])
           [("target", Str "light.kitchen")]).
  - reflexivity.
  - reflexivity.
  - reflexivity.
  - intros x Hx. exact Hx.
Defined.

Lemma BlueprintInputs_substitute_unvalidated_witness :
  ∃ x,
    x ∈ Blueprint.placeholders (blueprint_of declared_target)
        ∖ list_to_set (dict_keys [])
    ∧ BlueprintInputs.async_substitute
        {| BlueprintInputs.blueprint := blueprint_of declared_target;
           BlueprintInputs.config_with_inputs := use_blueprint [] |}
      = Raise (UndefinedPlaceholder x).
Proof.
  apply (BlueprintInputs_substitute_unvalidated declared_target None None
           (blueprint_of declared_target) (use_blueprint []) []).
  - reflexivity.
  - reflexivity.
  - intros Hx. vm_compute in Hx. discriminate Hx.
Defined.

Lemma get_blueprint_loads_once_witness :
  ∃ loaded,
    DomainBlueprints.async_get_blueprint (disk_with declared_target) "test.yaml"
    = (Return (Some (blueprint_of declared_target)), loaded)
    ∧ DomainBlueprints.disk_reads loaded
      = DomainBlueprints.disk_reads (disk_with declared_target)
        ++ [DomainBlueprints.file_of (disk_with declared_target) "test.yaml"]
    ∧ DomainBlueprints.files loaded = DomainBlueprints.files (disk_with declared_target)
    ∧ DomainBlueprints._blueprints loaded
      = <["test.yaml" := Some (blueprint_of declared_target)]>
          (DomainBlueprints._blueprints (disk_with declared_target))
    ∧ Blueprint.domain (blueprint_of declared_target)
      = DomainBlueprints.domain (disk_with declared_target)
    ∧ DomainBlueprints.async_get_blueprint loaded "test.yaml"
      = (Return (Some (blueprint_of declared_target)), loaded).
Proof.
  apply (get_blueprint_loads_once (disk_with declared_target)
           (DomainBlueprints.log_read (disk_with declared_target) blueprint_file)).
  - reflexivity.
  - by vm_compute.
Defined.


Lemma get_blueprint_raises_witness :
  (∃ cause,
     InvalidBlueprint (Some "automation") (Some "test.yaml") undeclared_other
       (Message "Missing input definition for other")
     = FailedToLoad (DomainBlueprints.domain (disk_with undeclared_other))
         "test.yaml" cause)
  ∨ is_InvalidBlueprint
      (InvalidBlueprint (Some "automation") (Some "test.yaml") undeclared_other
         (Message "Missing input definition for other")) = true.
Proof.
  apply (get_blueprint_raises (disk_with undeclared_other)
           (DomainBlueprints.async_get_blueprint (disk_with undeclared_other)
              "test.yaml").2 "test.yaml").
  - exact parse_raises.
  - by vm_compute.
Defined.

Lemma add_then_get_blueprint_witness :
  ∃ added,
    DomainBlueprints.async_add_blueprint empty_disk (blueprint_of declared_target)
      "test"
    = (Return (), added)
    ∧ DomainBlueprints.files added !! blueprint_file
      = Some (Blueprint.yaml (blueprint_of declared_target))
    ∧ DomainBlueprints.async_get_blueprint added
        (DomainBlueprints.with_extension "test")
      = (Return (Some (blueprint_of declared_target)), added)
    ∧ DomainBlueprints.disk_reads added = DomainBlueprints.disk_reads empty_disk.
Proof.
  apply (add_then_get_blueprint empty_disk (blueprint_of declared_target) "test"
           blueprint_file blueprint_folders); by vm_compute.
Defined.

Lemma add_blueprint_twice_witness :
  ∃ added,
    DomainBlueprints.async_add_blueprint empty_disk (blueprint_of declared_target)
      "test"
    = (Return (), added)
    ∧ DomainBlueprints.async_add_blueprint added (blueprint_of undeclared_other)
        "test"
      = (Raise (FileAlreadyExists (DomainBlueprints.domain empty_disk)
                  (DomainBlueprints.with_extension "test")), added)
    ∧ DomainBlueprints.async_add_blueprint added (blueprint_of undeclared_other)
        (DomainBlueprints.with_extension "test")
      = (Raise (FileAlreadyExists (DomainBlueprints.domain empty_disk)
                  (DomainBlueprints.with_extension "test")), added).
Proof.
  apply (add_blueprint_twice empty_disk (blueprint_of declared_target)
           (blueprint_of undeclared_other) "test" blueprint_file
           blueprint_folders); by vm_compute.
Defined.

Lemma add_then_remove_blueprint_witness :
  ∃ added removed,
    DomainBlueprints.async_add_blueprint empty_disk (blueprint_of declared_target)
      "test"
    = (Return (), added)
    ∧ DomainBlueprints.async_remove_blueprint added
        (DomainBlueprints.with_extension "test")
      = (Return (), removed)
    ∧ DomainBlueprints.files removed = DomainBlueprints.files empty_disk
    ∧ DomainBlueprints._blueprints removed
      = <[DomainBlueprints.with_extension "test" := None]>
          (DomainBlueprints._blueprints empty_disk)
    ∧ DomainBlueprints.async_get_blueprint removed
        (DomainBlueprints.with_extension "test")
      = (Return None, removed).
Proof.
  apply (add_then_remove_blueprint empty_disk (blueprint_of declared_target) "test"
           blueprint_folders); by vm_compute.
Defined.

Lemma remove_then_add_blueprint_witness :
  ∃ removed added,
    DomainBlueprints.async_remove_blueprint (disk_with undeclared_other) "test.yaml"
    = (Return (), removed)
    ∧ DomainBlueprints.async_add_blueprint removed (blueprint_of declared_target)
        "test.yaml"
      = (Return (), added)
    ∧ DomainBlueprints.files added
      = <[DomainBlueprints.file_of (disk_with undeclared_other) "test.yaml"
          := Blueprint.yaml (blueprint_of declared_target)]>
          (DomainBlueprints.files (disk_with undeclared_other))
    ∧ DomainBlueprints.async_get_blueprint added "test.yaml"
      = (Return (Some (blueprint_of declared_target)), added).
Proof.
  apply (remove_then_add_blueprint (disk_with undeclared_other)
           (blueprint_of declared_target) "test.yaml" blueprint_folders).
  - reflexivity.
  - by eexists.
  - by vm_compute.
  - by vm_compute.
  - by vm_compute.
Defined.

Lemma get_blueprints_results_witness :
  dom (match (DomainBlueprints.async_get_blueprints (disk_with undeclared_other)).1
       with Return r => r | Raise _ => ∅ end)
  = list_to_set
      (glob_yaml (DomainBlueprints.files (disk_with undeclared_other))
         (config_path [BLUEPRINT_FOLDER;
                       DomainBlueprints.domain (disk_with undeclared_other)]))
  ∧ DomainBlueprints.files
      (DomainBlueprints.async_get_blueprints (disk_with undeclared_other)).2
    = DomainBlueprints.files (disk_with undeclared_other)
  ∧ results_agree (disk_with undeclared_other)
      (match (DomainBlueprints.async_get_blueprints (disk_with undeclared_other)).1
       with Return r => r | Raise _ => ∅ end)
      (DomainBlueprints._blueprints
         (DomainBlueprints.async_get_blueprints (disk_with undeclared_other)).2).
Proof.
  apply (get_blueprints_results (disk_with undeclared_other)).
  by vm_compute.
Defined.

Lemma get_blueprints_reloads_failed_witness :
  DomainBlueprints._blueprints
    (DomainBlueprints.async_get_blueprints repaired_disk).2 !! "test.yaml"
  = Some (Some (blueprint_of declared_target))
  ∧ (match (DomainBlueprints.async_get_blueprints repaired_disk).1
     with Return r => r | Raise _ => ∅ end) !! "test.yaml"
    = Some (inr (Some (blueprint_of declared_target))).
Proof.
  apply (get_blueprints_reloads_failed repaired_disk).
  - apply (bool_decide_unpack _). by vm_compute.
  - intros [b Hb]. vm_compute in Hb. discriminate Hb.
  - by vm_compute.
  - by vm_compute.
Defined.

Lemma get_blueprints_all_cached_witness :
  ∃ results,
    DomainBlueprints.async_get_blueprints
      (DomainBlueprints.async_get_blueprint (disk_with declared_target) "test.yaml").2
    = (Return results,
       (DomainBlueprints.async_get_blueprint (disk_with declared_target) "test.yaml").2)
    ∧ ∀ p,
        p ∈ glob_yaml
              (DomainBlueprints.files
                 (DomainBlueprints.async_get_blueprint (disk_with declared_target)
                    "test.yaml").2)
              (config_path
                 [BLUEPRINT_FOLDER;
                  DomainBlueprints.domain
                    (DomainBlueprints.async_get_blueprint (disk_with declared_target)
                       "test.yaml").2]) →
        ∃ b, results !! p = Some (inr (Some b))
             ∧ DomainBlueprints._blueprints
                 (DomainBlueprints.async_get_blueprint (disk_with declared_target)
                    "test.yaml").2 !! p
               = Some (Some b).
Proof.
  apply (get_blueprints_all_cached
           (DomainBlueprints.async_get_blueprint (disk_with declared_target)
              "test.yaml").2).
  intros p Hp.
  assert (p = "test.yaml") as ->.
  { vm_compute in Hp. apply elem_of_cons in Hp as [->|Hp]; [done|].
    by apply elem_of_nil in Hp. }
  exists (blueprint_of declared_target). by vm_compute.
Defined.

Lemma get_blueprints_returns_witness :
  ∃ results self',
    DomainBlueprints.async_get_blueprints (disk_with undeclared_other)
    = (Return results, self').
Proof.
  apply (get_blueprints_returns (disk_with undeclared_other)).
  exact parse_raises.
Defined.

Lemma inputs_from_config_after_failure_witness :
  ∃ failed,
    DomainBlueprints.async_inputs_from_config empty_disk
      (use_blueprint [("target", Str "light.kitchen")])
    = (Raise (FailedToLoad "automation" "test.yaml"
                (FileNotFoundError blueprint_file)), failed)
    ∧ DomainBlueprints.cached_failed failed "test.yaml"
    ∧ DomainBlueprints.async_inputs_from_config failed
        (use_blueprint [("target", Str "light.kitchen")])
      = (Raise AttributeError, failed).
Proof.
  apply (inputs_from_config_after_failure empty_disk
           (DomainBlueprints.log_read empty_disk blueprint_file)
           (use_blueprint [("target", Str "light.kitchen")])
           (use_blueprint [("target", Str "light.kitchen")])
           [ (CONF_PATH, Str "test.yaml");
             (CONF_INPUT, Mapping [("target", Str "light.kitchen")]) ]
           "test.yaml").
  - reflexivity.
  - reflexivity.
  - reflexivity.
  - reflexivity.
  - reflexivity.
Defined.

Lemma inputs_from_config_Return_witness :
  BlueprintInputs.validate
    {| BlueprintInputs.blueprint := blueprint_of declared_target;
       BlueprintInputs.config_with_inputs :=
         use_blueprint [("target", Str "light.kitchen")] |}
  = Return ().
Proof.
  apply (inputs_from_config_Return (disk_with declared_target)
           (DomainBlueprints.async_inputs_from_config (disk_with declared_target)
              (use_blueprint [("target", Str "light.kitchen")])).2
           (use_blueprint [("target", Str "light.kitchen")])
           (use_blueprint [("target", Str "light.kitchen")])
           [ (CONF_PATH, Str "test.yaml");
             (CONF_INPUT, Mapping [("target", Str "light.kitchen")]) ]
           "test.yaml"
           {| BlueprintInputs.blueprint := blueprint_of declared_target;
              BlueprintInputs.config_with_inputs :=
                use_blueprint [("target", Str "light.kitchen")] |}).
  - reflexivity.
  - reflexivity.
  - reflexivity.
  - by vm_compute.
Defined.

Lemma get_blueprint_no_deadlock_witness :
  ∃ i l', EventLoop.step i two_callers_waiting = Some l'.
Proof.
  apply (get_blueprint_no_deadlock empty_disk "test.yaml" 2 [0; 1]).
  - reflexivity.
  - eexists. split; [apply list_elem_of_here|]. discriminate.
Defined.

Lemma get_blueprint_calls_terminate_witness :
  length [0; 1] + work two_callers_waiting ≤ 3 * 2.
Proof.
  apply (get_blueprint_calls_terminate empty_disk "test.yaml" 2 [0; 1]).
  reflexivity.
Defined.

Lemma concurrent_calls_one_read_witness :
  (DomainBlueprints.disk_reads (EventLoop.registry two_callers_finished)
   = DomainBlueprints.disk_reads empty_disk
   ∨ DomainBlueprints.disk_reads (EventLoop.registry two_callers_finished)
     = DomainBlueprints.disk_reads empty_disk
       ++ [DomainBlueprints.file_of empty_disk "test.yaml"])
  ∧ ∀ c r, c ∈ EventLoop.calls two_callers_finished →
      EventLoop.at_pc c = EventLoop.Finished r →
      DomainBlueprints.disk_reads (EventLoop.registry two_callers_finished)
      = DomainBlueprints.disk_reads empty_disk
        ++ [DomainBlueprints.file_of empty_disk "test.yaml"]
      ∧ match (DomainBlueprints._load_blueprint empty_disk "test.yaml").1 with
        | Return b => r = Return (Some b)
        | Raise e => r = Raise e ∨ r = Return None
        end.
Proof.
  apply (concurrent_calls_one_read empty_disk "test.yaml" 2 [0; 1; 0; 1]).
  - reflexivity.
  - by vm_compute.
Defined.

Lemma serial_shared_by_endpoints_witness :
  DeconzBase.serial (endpoint "00:11:22:33:44:55:66:77-01")
  = Some "00:11:22:33:44:55:66:77"
  ∧ DeconzBase.serial (endpoint "00:11:22:33:44:55:66:77-02-0006")
    = Some "00:11:22:33:44:55:66:77"
  ∧ ∃ info info',
      DeconzBase.device_info "zigbee" "deconz"
        (endpoint "00:11:22:33:44:55:66:77-01") = Some info
      ∧ DeconzBase.device_info "zigbee" "deconz"
          (endpoint "00:11:22:33:44:55:66:77-02-0006") = Some info'
      ∧ DeconzBase.identifiers info = DeconzBase.identifiers info'
      ∧ DeconzBase.connections info = DeconzBase.connections info'.
Proof.
  apply (serial_shared_by_endpoints "zigbee" "deconz"
           (endpoint "00:11:22:33:44:55:66:77-01")
           (endpoint "00:11:22:33:44:55:66:77-02-0006")
           "00:11:22:33:44:55:66:77" "01" "02-0006"); reflexivity.
Defined.

Lemma entity_life_cycle_witness :
  ∃ created removed,
    DeconzDevice.__init__ (light "light.kitchen") fresh_gateway = (Return (), created)
    ∧ DeconzDevice.entities created !! DeconzDevice.TYPE (light "light.kitchen")
      = Some ({[ DeconzDevice.unique_id (light "light.kitchen") ]} ∪ ∅)
    ∧ DeconzDevice.deconz_ids
        (DeconzDevice.async_added_to_hass (light "light.kitchen") created)
        !! DeconzDevice.entity_id (light "light.kitchen")
      = Some (DeconzDevice.deconz_id (light "light.kitchen"))
    ∧ DeconzDevice.async_will_remove_from_hass (light "light.kitchen")
        (DeconzDevice.async_added_to_hass (light "light.kitchen") created)
      = (Return (), removed)
    ∧ DeconzDevice.entities removed = DeconzDevice.entities fresh_gateway
    ∧ DeconzDevice.deconz_ids removed = DeconzDevice.deconz_ids fresh_gateway
    ∧ DeconzDevice.calls removed
      = DeconzDevice.calls fresh_gateway
        ++ [DeconzDevice.register_callback
              (DeconzDevice.unique_id (light "light.kitchen"));
            DeconzDevice.dispatcher_connect
              (DeconzDevice.signal_reachable fresh_gateway);
            DeconzDevice.remove_callback
              (DeconzDevice.unique_id (light "light.kitchen"))].
Proof.
  apply (entity_life_cycle (light "light.kitchen") fresh_gateway ∅).
  - reflexivity.
  - apply not_elem_of_empty.
  - reflexivity.
Defined.

Lemma entity_removed_before_added_witness :
  DeconzDevice.async_will_remove_from_hass (light "light.kitchen") fresh_gateway
  = (Raise (KeyError (DeconzDevice.entity_id (light "light.kitchen"))),
     DeconzDevice.log_call fresh_gateway
       (DeconzDevice.remove_callback
          (DeconzDevice.unique_id (light "light.kitchen"))))
  ∧ DeconzDevice.entities
      (DeconzDevice.async_will_remove_from_hass (light "light.kitchen")
         fresh_gateway).2
    = DeconzDevice.entities fresh_gateway.
Proof.
  apply (entity_removed_before_added (light "light.kitchen") fresh_gateway).
  reflexivity.
Defined.

Lemma entity_duplicate_unique_id_witness :
  ∃ gw1 gw2 gw3 gw4,
    DeconzDevice.__init__ (light "light.kitchen") fresh_gateway = (Return (), gw1)
    ∧ DeconzDevice.__init__ (light "light.kitchen_2") gw1 = (Return (), gw2)
    ∧ DeconzDevice.entities gw2 = DeconzDevice.entities gw1
    ∧ DeconzDevice.async_will_remove_from_hass (light "light.kitchen")
        (DeconzDevice.async_added_to_hass (light "light.kitchen_2")
           (DeconzDevice.async_added_to_hass (light "light.kitchen") gw2))
      = (Return (), gw3)
    ∧ DeconzDevice.async_will_remove_from_hass (light "light.kitchen_2") gw3
      = (Raise (KeyError
                  (DeconzDevice.repr
                     (DeconzDevice.unique_id (light "light.kitchen")))), gw4)
    ∧ DeconzDevice.deconz_ids gw4
        !! DeconzDevice.entity_id (light "light.kitchen_2") = None.
Proof.
  apply (entity_duplicate_unique_id (light "light.kitchen") (light "light.kitchen_2")
           fresh_gateway ∅).
  - reflexivity.
  - reflexivity.
  - discriminate.
  - reflexivity.
  - apply not_elem_of_empty.
Defined.

End scenario_more.
